(** * A shallow embedding of the elm-decoders TypeScript library

    The repository holds several generations of the library side by side:
    - [src/src/result.ts]: [Result] and [Result.merge];
    - [src/src/decoder.ts]: the early decoder with string errors (module [DecoderTs]);
    - [src/unnamed/part_004], lines 1-653: the decoder whose errors are the
      union type of [src/src/error.ts] (module [V1]);
    - [src/unnamed/part_004], lines 655-1203, with the renderer of
      [src/unnamed/part_003]: the decoder whose errors are
      [{message; next}] trees (module [V2]).

    JavaScript values are modelled as a tree-shaped inductive type; an
    object is its prototype and its own properties in the order of their
    creation.  Property reads follow the prototype chain through
    [Object.prototype], [Array.prototype] and [Function.prototype], whose
    properties are listed, the accessor [__proto__] included; property
    writes follow the strict-mode [[Set]] of the language.  Numbers are
    modelled by their exact value: a finite number is a rational, and the
    three non-finite values are constructors.  Any JavaScript function may
    throw, so decoders return in a small exception monad [throws]. *)

From Stdlib Require Import String Ascii List Bool ZArith QArith Qpower Qround Lia.
From Stdlib Require Import DecimalString DecimalNat DecimalPos DecimalN.
From Stdlib Require Import Permutation.
Import ListNotations.
Set Warnings "-register-all".
Open Scope string_scope.
Open Scope list_scope.

(** ** JavaScript values *)

Inductive jsnumber : Type :=
| Fin (q : Q)
| PosInf
| NegInf
| NaN.

(** The built-in objects a property read can reach from a decoder's input. *)
Inductive intrinsic : Type :=
| ObjectPrototype
| ArrayPrototype
| FunctionPrototype.

(** [VObject ps] is an ordinary object whose prototype is [Object.prototype]
    and whose own properties are the enumerable, writable data properties
    [ps], in the order they were created; [VObjectP proto ps] is the same
    with the prototype [proto] (null or an object).  [VFunction name length]
    is the built-in function of that name, and [VIntrinsic] one of the
    prototype objects; only their properties play a part. *)
Inductive value : Type :=
| VUndefined
| VNull
| VBool (b : bool)
| VNum (n : jsnumber)
| VStr (s : string)
| VBigInt (z : Z)
| VArray (items : list value)
| VObject (props : list (string * value))
| VObjectP (proto : value) (props : list (string * value))
| VFunction (name : string) (length : nat)
| VIntrinsic (i : intrinsic).

(** [typeof data] *)
Definition typeof (v : value) : string :=
  match v with
  | VUndefined => "undefined"
  | VNull => "object"
  | VBool _ => "boolean"
  | VNum _ => "number"
  | VStr _ => "string"
  | VBigInt _ => "bigint"
  | VArray _ => "object"
  | VObject _ => "object"
  | VObjectP _ _ => "object"
  | VFunction _ _ => "function"
  | VIntrinsic FunctionPrototype => "function"
  | VIntrinsic _ => "object"
  end.

(** [typeof data === 'object' && data !== null] *)
Definition is_object_nonnull (v : value) : bool :=
  String.eqb (typeof v) "object" && negb (match v with VNull => true | _ => false end).

(** Objects and [null], the values [Object.prototype.__proto__]'s setter
    accepts. *)
Definition is_object_or_null (v : value) : bool :=
  match v with
  | VNull | VArray _ | VObject _ | VObjectP _ _ | VFunction _ _ | VIntrinsic _ => true
  | _ => false
  end.

(** [Array.isArray(data)], with the elements [data.map] visits:
    [Array.prototype] is itself an array, of length 0. *)
Definition array_items (v : value) : option (list value) :=
  match v with
  | VArray items => Some items
  | VIntrinsic ArrayPrototype => Some []
  | _ => None
  end.

(** The canonical numeric string of an array index ("0", "1", ...). *)
Definition index_key (i : nat) : string := NilEmpty.string_of_uint (N.to_uint (N.of_nat i)).

Fixpoint assoc {A} (k : string) (ps : list (string * A)) : option A :=
  match ps with
  | [] => None
  | (k', v) :: rest => if String.eqb k k' then Some v else assoc k rest
  end.

(** The entries an array shows as a mapping from its index keys. *)
Definition array_entries (l : list value) : list (string * value) :=
  combine (List.map index_key (seq 0 (length l))) l.

(** Overwrite the own property [k] in place, or append it. *)
Fixpoint update_own {A} (ps : list (string * A)) (k : string) (v : A) : list (string * A) :=
  match ps with
  | [] => [(k, v)]
  | (k', v') :: rest => if String.eqb k k' then (k, v) :: rest else (k', v') :: update_own rest k v
  end.

(** *** Properties *)

(** A property found on a prototype chain: a data property, writable or
    not; the accessor [Object.prototype.__proto__]; or the accessors
    [caller] and [arguments] of [Function.prototype], whose getter and
    setter are [%ThrowTypeError%]. *)
Inductive property : Type :=
| DataProp (v : value) (writable : bool)
| ProtoAccessor
| ThrowerAccessor.

Definition method (name : string) (length : nat) : property := DataProp (VFunction name length) true.

(** The methods of the built-in objects (ECMAScript 2023), with their
    [length]. *)
Definition object_prototype_methods : list (string * nat) :=
  [("__defineGetter__", 2); ("__defineSetter__", 2); ("hasOwnProperty", 1);
   ("__lookupGetter__", 1); ("__lookupSetter__", 1); ("isPrototypeOf", 1);
   ("propertyIsEnumerable", 1); ("toString", 0); ("valueOf", 0); ("toLocaleString", 0)]%nat.

Definition array_prototype_methods : list (string * nat) :=
  [("at", 1); ("concat", 1); ("copyWithin", 2); ("entries", 0); ("every", 1);
   ("fill", 1); ("filter", 1); ("find", 1); ("findIndex", 1); ("findLast", 1);
   ("findLastIndex", 1); ("flat", 0); ("flatMap", 1); ("forEach", 1);
   ("includes", 1); ("indexOf", 1); ("join", 1); ("keys", 0); ("lastIndexOf", 1);
   ("map", 1); ("pop", 0); ("push", 1); ("reduce", 1); ("reduceRight", 1);
   ("reverse", 0); ("shift", 0); ("slice", 2); ("some", 1); ("sort", 1);
   ("splice", 2); ("toLocaleString", 0); ("toReversed", 0); ("toSorted", 1);
   ("toSpliced", 2); ("toString", 0); ("unshift", 1); ("values", 0); ("with", 2)]%nat.

Definition function_prototype_methods : list (string * nat) :=
  [("apply", 2); ("bind", 1); ("call", 1); ("toString", 0)]%nat.

Definition object_statics : list (string * nat) :=
  [("assign", 2); ("create", 2); ("defineProperties", 2); ("defineProperty", 3);
   ("entries", 1); ("freeze", 1); ("fromEntries", 1); ("getOwnPropertyDescriptor", 2);
   ("getOwnPropertyDescriptors", 1); ("getOwnPropertyNames", 1);
   ("getOwnPropertySymbols", 1); ("getPrototypeOf", 1); ("hasOwn", 2); ("is", 2);
   ("isExtensible", 1); ("isFrozen", 1); ("isSealed", 1); ("keys", 1);
   ("preventExtensions", 1); ("seal", 1); ("setPrototypeOf", 2); ("values", 1)]%nat.

Definition array_statics : list (string * nat) :=
  [("from", 1); ("isArray", 1); ("of", 0)]%nat.

Definition method_table (methods : list (string * nat)) (key : string) : option property :=
  match assoc key methods with
  | Some n => Some (method key n)
  | None => None
  end.

Definition object_prototype_own (key : string) : option property :=
  if String.eqb key "__proto__" then Some ProtoAccessor
  else if String.eqb key "constructor" then Some (method "Object" 1)
  else method_table object_prototype_methods key.

Definition array_prototype_own (key : string) : option property :=
  if String.eqb key "length" then Some (DataProp (VNum (Fin 0)) true)
  else if String.eqb key "constructor" then Some (method "Array" 1)
  else method_table array_prototype_methods key.

Definition function_prototype_own (key : string) : option property :=
  if String.eqb key "length" then Some (DataProp (VNum (Fin 0)) false)
  else if String.eqb key "name" then Some (DataProp (VStr "") false)
  else if String.eqb key "caller" || String.eqb key "arguments" then Some ThrowerAccessor
  else if String.eqb key "constructor" then Some (method "Function" 1)
  else method_table function_prototype_methods key.

(** The own properties of a built-in function: its [length] and [name], and
    for the constructors [Object], [Array] and [Function] their [prototype]
    and static methods. *)
Definition function_own (name : string) (len : nat) (key : string) : option property :=
  if String.eqb key "length" then Some (DataProp (VNum (Fin (inject_Z (Z.of_nat len)))) false)
  else if String.eqb key "name" then Some (DataProp (VStr name) false)
  else if String.eqb name "Object" then
    if String.eqb key "prototype" then Some (DataProp (VIntrinsic ObjectPrototype) false)
    else method_table object_statics key
  else if String.eqb name "Array" then
    if String.eqb key "prototype" then Some (DataProp (VIntrinsic ArrayPrototype) false)
    else method_table array_statics key
  else if String.eqb name "Function" then
    if String.eqb key "prototype" then Some (DataProp (VIntrinsic FunctionPrototype) false)
    else None
  else None.

(** The own properties of an array: its [length] and its elements. *)
Definition array_own (l : list value) (key : string) : option property :=
  if String.eqb key "length" then Some (DataProp (VNum (Fin (inject_Z (Z.of_nat (length l))))) true)
  else match assoc key (array_entries l) with
       | Some v => Some (DataProp v true)
       | None => None
       end.

Definition intrinsic_own (i : intrinsic) : string -> option property :=
  match i with
  | ObjectPrototype => object_prototype_own
  | ArrayPrototype => array_prototype_own
  | FunctionPrototype => function_prototype_own
  end.

(** The chain from a prototype object: [Array.prototype] and
    [Function.prototype] inherit from [Object.prototype], whose prototype is
    null. *)
Definition lookup_intrinsic (i : intrinsic) (key : string) : option property :=
  match intrinsic_own i key with
  | Some p => Some p
  | None =>
      match i with
      | ObjectPrototype => None
      | _ => object_prototype_own key
      end
  end.

(** The property [key] of an object, looked up along its prototype chain;
    [None] when no object of the chain has it. *)
Fixpoint lookup (o : value) (key : string) : option property :=
  match o with
  | VObject ps =>
      match assoc key ps with
      | Some v => Some (DataProp v true)
      | None => lookup_intrinsic ObjectPrototype key
      end
  | VObjectP proto ps =>
      match assoc key ps with
      | Some v => Some (DataProp v true)
      | None => lookup proto key
      end
  | VArray l =>
      match array_own l key with
      | Some p => Some p
      | None => lookup_intrinsic ArrayPrototype key
      end
  | VFunction name len =>
      match function_own name len key with
      | Some p => Some p
      | None => lookup_intrinsic FunctionPrototype key
      end
  | VIntrinsic i => lookup_intrinsic i key
  | _ => None
  end.

(** [Object.getPrototypeOf(o)], what the [__proto__] getter returns. *)
Definition proto_of (o : value) : value :=
  match o with
  | VObject _ => VIntrinsic ObjectPrototype
  | VObjectP proto _ => proto
  | VArray _ => VIntrinsic ArrayPrototype
  | VFunction _ _ => VIntrinsic FunctionPrototype
  | VIntrinsic ObjectPrototype => VNull
  | VIntrinsic _ => VIntrinsic ObjectPrototype
  | _ => VNull
  end.

(** [o[key]] for a key no throwing accessor holds. *)
Definition get_data (o : value) (key : string) : value :=
  match lookup o key with
  | Some (DataProp v _) => v
  | Some ProtoAccessor => proto_of o
  | Some ThrowerAccessor | None => VUndefined
  end.

(** ** Numbers *)

Definition isNaN (n : jsnumber) : bool := match n with NaN => true | _ => false end.

(** [Math.floor] *)
Definition math_floor (n : jsnumber) : jsnumber :=
  match n with
  | Fin q => Fin (inject_Z (Qfloor q))
  | other => other
  end.

(** Strict equality [===] on numbers. *)
Definition num_strict_eq (a b : jsnumber) : bool :=
  match a, b with
  | Fin p, Fin q => Qeq_bool p q
  | PosInf, PosInf => true
  | NegInf, NegInf => true
  | _, _ => false
  end.

(** [const isInteger = (n) => Math.floor(n) === n && n !== Infinity] (part_004 line 7) *)
Definition isInteger (n : jsnumber) : bool :=
  num_strict_eq (math_floor n) n && negb (num_strict_eq n PosInf).

(** ** Exceptions *)

(** The error union of [src/src/error.ts]:
    [{[key]: DecodeError} | {index?, error, value?} | [number, DecodeError] | DecodeError[]]. *)
Module ErrorV1.
Inductive DecodeError : Type :=
| DEKeyed (entries : list (string * DecodeError))
| DEKeyedP (proto : DecodeError) (entries : list (string * DecodeError))
| DESingle (index : option nat) (error : string) (value : option value)
| DEIndexed (index : nat) (error : DecodeError)
| DEList (errors : list DecodeError).

(** [makeSingleError = (error, value) => ({ error, value })] *)
Definition makeSingleError (error : string) (v : value) : DecodeError :=
  DESingle None error (Some v).

(** The JavaScript value of an error: [DEKeyedP] is a keyed error whose
    prototype a write to [__proto__] has set; [{ index?, error, value? }]
    has its keys in this order. *)
Fixpoint to_value (e : DecodeError) : value :=
  match e with
  | DEKeyed es => VObject (List.map (fun p => (fst p, to_value (snd p))) es)
  | DEKeyedP proto es => VObjectP (to_value proto) (List.map (fun p => (fst p, to_value (snd p))) es)
  | DESingle index error v =>
      VObject ((match index with
                | Some i => [("index", VNum (Fin (inject_Z (Z.of_nat i))))]
                | None => []
                end)
               ++ [("error", VStr error)]
               ++ (match v with Some v => [("value", v)] | None => [] end))
  | DEIndexed i e' => VArray [VNum (Fin (inject_Z (Z.of_nat i))); to_value e']
  | DEList es => VArray (List.map to_value es)
  end.
End ErrorV1.

(** The tree of [src/unnamed/part_003]: [{ message: string; next?: DecodeError[] }]. *)
Module ErrorV2.
Inductive DecodeError : Type :=
| DE (message : string) (next : option (list DecodeError)).
End ErrorV2.

Inductive exn : Type :=
| ExnTypeError (message : string)
| ExnThrown (v : value)
| ExnValidationFailedV1 (error : ErrorV1.DecodeError)
| ExnValidationFailedV2 (error : string).

Inductive throws (A : Type) : Type :=
| Returns (a : A)
| Throws (e : exn).
Arguments Returns {A} a.
Arguments Throws {A} e.

Definition bind {A B} (m : throws A) (k : A -> throws B) : throws B :=
  match m with
  | Returns a => k a
  | Throws e => Throws e
  end.

Notation "x <- m ;; k" := (bind m (fun x => k))
  (at level 61, m at next level, right associativity).

(** ** Result ([src/src/result.ts]) *)

Module Result.
Inductive Result (T E : Type) : Type :=
| OK (value : T)
| FAIL (error : E).
Arguments OK {T E} value.
Arguments FAIL {T E} error.

Definition map {T E V} (f : T -> throws V) (r : Result T E) : throws (Result V E) :=
  match r with
  | OK v => x <- f v ;; Returns (OK x)
  | FAIL e => Returns (FAIL e)
  end.

Definition mapError {T E V} (f : E -> throws V) (r : Result T E) : throws (Result T V) :=
  match r with
  | OK v => Returns (OK v)
  | FAIL e => x <- f e ;; Returns (FAIL x)
  end.

(** [andThen] (lines 24-31) *)
Definition andThen {T E V} (f : T -> throws (Result V E)) (r : Result T E) : throws (Result V E) :=
  match r with
  | OK v => f v
  | FAIL e => Returns (FAIL e)
  end.

Definition isOk {T E} (r : Result T E) : bool :=
  match r with OK _ => true | FAIL _ => false end.

(** One step of the [reduce] in [Result.merge]. *)
Definition merge_step {T E} (addErrorIndex : nat -> E -> E)
    (p : Result (list T) (list E)) (c : Result T E) (i : nat) : Result (list T) (list E) :=
  match p with
  | OK ps =>
      match c with
      | OK cv => OK (ps ++ [cv])
      | FAIL ce => FAIL [addErrorIndex i ce]
      end
  | FAIL pe =>
      match c with
      | OK _ => FAIL pe
      | FAIL ce => FAIL (pe ++ [addErrorIndex i ce])
      end
  end.

Fixpoint merge_from {T E} (addErrorIndex : nat -> E -> E) (i : nat)
    (p : Result (list T) (list E)) (values : list (Result T E)) : Result (list T) (list E) :=
  match values with
  | [] => p
  | c :: rest => merge_from addErrorIndex (S i) (merge_step addErrorIndex p c i) rest
  end.

(** [static merge = (values, addErrorIndex) => values.reduce(..., Result.ok([]))] *)
Definition merge {T E} (values : list (Result T E)) (addErrorIndex : nat -> E -> E)
  : Result (list T) (list E) :=
  merge_from addErrorIndex 0 (OK []) values.
End Result.
Import Result (Result, OK, FAIL).

(** A decoder wraps [decoder: (data: any) => Result<T, E>]. *)
Record Decoder (E T : Type) : Type := mkDecoder { decoder : value -> throws (Result T E) }.
Arguments mkDecoder {E T} decoder.
Arguments decoder {E T} d data.

(** ** Numeric strings *)

Definition is_digit (c : ascii) : bool :=
  ((48 <=? nat_of_ascii c) && (nat_of_ascii c <=? 57))%nat.

Definition digit_value (c : ascii) : Z := Z.of_nat (nat_of_ascii c - 48).

(** The longest prefix of decimal digits, and the rest. *)
Fixpoint span_digits (s : string) : string * string :=
  match s with
  | EmptyString => (EmptyString, EmptyString)
  | String c rest =>
      if is_digit c then let (ds, r) := span_digits rest in (String c ds, r)
      else (EmptyString, s)
  end.

Fixpoint digits_value_acc (acc : Z) (s : string) : Z :=
  match s with
  | EmptyString => acc
  | String c rest => digits_value_acc (10 * acc + digit_value c) rest
  end.

Definition digits_value (s : string) : Z := digits_value_acc 0 s.


Definition is_empty (s : string) : bool :=
  match s with EmptyString => true | _ => false end.

(** The character classes [[E|e]] and [[+|-]] of the regular expression
    (the bar is a member of both classes). *)
Definition is_exp_marker (c : ascii) : bool :=
  Ascii.eqb c "E" || Ascii.eqb c "|" || Ascii.eqb c "e".
Definition is_exp_sign (c : ascii) : bool :=
  Ascii.eqb c "+" || Ascii.eqb c "|" || Ascii.eqb c "-".

(** [(?:[E|e][+|-]?\d+)?$] *)
Definition match_exponent (s : string) : bool :=
  match s with
  | EmptyString => true
  | String c r =>
      if is_exp_marker c then
        let r' := match r with
                  | String c' r'' => if is_exp_sign c' then r'' else r
                  | EmptyString => r
                  end in
        let (ds, rest) := span_digits r' in negb (is_empty ds) && is_empty rest
      else false
  end.

(** [(?:\d+|\d*\.\d+)(?:[E|e][+|-]?\d+)?$] *)
Definition match_decimal (s : string) : bool :=
  let (int, r1) := span_digits s in
  match r1 with
  | String c r2 =>
      if Ascii.eqb c "." then
        let (frac, r3) := span_digits r2 in negb (is_empty frac) && match_exponent r3
      else negb (is_empty int) && match_exponent r1
  | EmptyString => negb (is_empty int)
  end.

(** [matchOnlyNumberRe = /^((?:NaN|-?(?:(?:\d+|\d*\.\d+)(?:[E|e][+|-]?\d+)?|Infinity)))$/]
    (part_004 lines 8-10) *)
Definition matchOnlyNumberRe (s : string) : bool :=
  String.eqb s "NaN" ||
  (let r := match s with
            | String c rest => if Ascii.eqb c "-" then rest else s
            | EmptyString => s
            end in
   String.eqb r "Infinity" || match_decimal r).

(** [isStringNumber = (n) => n.length !== 0 && n.match(matchOnlyNumberRe) !== null] *)
Definition isStringNumber (n : string) : bool :=
  negb (String.length n =? 0)%nat && matchOnlyNumberRe n.

(** [parseFloat]: skip leading white space, read an optional sign and either
    [Infinity] or the longest prefix of the form
    [digits [. digits] [(e|E) [+|-] digits]] with at least one mantissa digit;
    [NaN] when there is none.  The value is the exact decimal value (rounding
    to the nearest binary64 value is not modelled). *)
Definition is_white (c : ascii) : bool :=
  let n := nat_of_ascii c in (((9 <=? n) && (n <=? 13)) || (n =? 32))%nat.

Fixpoint trim_start (s : string) : string :=
  match s with
  | String c rest => if is_white c then trim_start rest else s
  | EmptyString => s
  end.

Definition pow10 (e : Z) : Q := Qpower (inject_Z 10) e.

Definition parse_exponent (s : string) : Z :=
  match s with
  | String c r =>
      if Ascii.eqb c "e" || Ascii.eqb c "E" then
        let '(neg, r') := match r with
                          | String c' r'' =>
                              if Ascii.eqb c' "-" then (true, r'')
                              else if Ascii.eqb c' "+" then (false, r'') else (false, r)
                          | EmptyString => (false, r)
                          end in
        let (ds, _) := span_digits r' in
        if is_empty ds then 0%Z else if neg then Z.opp (digits_value ds) else digits_value ds
      else 0%Z
  | EmptyString => 0%Z
  end.

Definition parse_unsigned_decimal (s : string) : option Q :=
  let (int, r1) := span_digits s in
  let '(frac, r2) := match r1 with
                     | String c r => if Ascii.eqb c "." then span_digits r else (EmptyString, r1)
                     | EmptyString => (EmptyString, r1)
                     end in
  if is_empty int && is_empty frac then None
  else Some (inject_Z (digits_value (int ++ frac)%string)
             * pow10 (parse_exponent r2 - Z.of_nat (String.length frac)))%Q.

Definition parseFloat (input : string) : jsnumber :=
  let s := trim_start input in
  let '(neg, r) := match s with
                   | String c rest =>
                       if Ascii.eqb c "-" then (true, rest)
                       else if Ascii.eqb c "+" then (false, rest) else (false, s)
                   | EmptyString => (false, s)
                   end in
  if String.prefix "Infinity" r then (if neg then NegInf else PosInf)
  else match parse_unsigned_decimal r with
       | Some q => Fin (if neg then Qopp q else q)
       | None => NaN
       end.

(** Evaluate [f] on every element in order, propagating the first exception
    ([array.map(f)] with a callback that may throw). *)
Fixpoint map_throws {A B} (f : A -> throws B) (l : list A) : throws (list B) :=
  match l with
  | [] => Returns []
  | x :: rest => y <- f x ;; ys <- map_throws f rest ;; Returns (y :: ys)
  end.

(** ** Property access *)

Definition restricted_message : string :=
  "'caller', 'callee', and 'arguments' properties may not be accessed on strict mode functions or the arguments objects for calls to them".

(** [data[key]]: the value of a data property, the prototype for
    [__proto__], [undefined] for a missing key; the accessors [caller] and
    [arguments] of [Function.prototype] throw. *)
Definition get_prop (data : value) (key : string) : throws value :=
  match lookup data key with
  | Some ThrowerAccessor => Throws (ExnTypeError restricted_message)
  | _ => Returns (get_data data key)
  end.

(** [k] is an array index: the canonical decimal string of an integer below
    2^32 - 1. *)
Definition array_index_value (k : string) : option N :=
  match NilEmpty.uint_of_string k with
  | Some d =>
      let n := N.of_uint d in
      if String.eqb (NilEmpty.string_of_uint (N.to_uint n)) k && (n <? 4294967295)%N then Some n
      else None
  | None => None
  end.

Fixpoint insert_index (n : N) (k : string) (l : list (N * string)) : list (N * string) :=
  match l with
  | [] => [(n, k)]
  | (m, k') :: rest => if (n <? m)%N then (n, k) :: l else (m, k') :: insert_index n k rest
  end.

(** [OrdinaryOwnPropertyKeys] on string keys: the array indices in
    ascending order, then the other keys in the order of their creation. *)
Definition own_keys (keys : list string) : list string :=
  List.map snd (fold_left (fun acc k => match array_index_value k with
                                        | Some n => insert_index n k acc
                                        | None => acc
                                        end) keys [])
  ++ List.filter (fun k => match array_index_value k with Some _ => false | None => true end) keys.

(** The keys visited by [for (const key in data)]: the enumerable own keys,
    then those of the prototype chain not met before.  The properties of
    the built-in objects and the [length] of an array are not enumerable. *)
Fixpoint for_in_keys (data : value) : list string :=
  match data with
  | VObject ps => own_keys (List.map fst ps)
  | VObjectP proto ps =>
      let own := own_keys (List.map fst ps) in
      own ++ List.filter (fun k => negb (existsb (String.eqb k) own)) (for_in_keys proto)
  | VArray l => List.map index_key (seq 0 (length l))
  | _ => []
  end.

(** An object a decoder builds ([let obj = {}]): its prototype, [None]
    while it is [Object.prototype], and its own properties in the order of
    their creation. *)
Definition new_object (A : Type) : Type := (option A * list (string * A))%type.

(** [obj[key] = v] in strict mode (class bodies are strict code), where
    [to_value] gives the JavaScript value of a [v]:
    - an own property is overwritten in place;
    - otherwise the prototype chain decides: no property, or a writable
      data property, gives a new own property; a read-only data property,
      or the setter [%ThrowTypeError%], throws a [TypeError]; the setter of
      [__proto__] makes an object or [null] the prototype, ignores any
      other value, and adds no property.
    The new prototype never has [obj] on its chain, so the cycle check of
    that setter never fires. *)
Definition set_prop {A} (to_value : A -> value) (obj : new_object A) (key : string) (v : A)
  : throws (new_object A) :=
  let '(proto, ps) := obj in
  match assoc key ps with
  | Some _ => Returns (proto, update_own ps key v)
  | None =>
      match lookup (match proto with Some p => to_value p | None => VIntrinsic ObjectPrototype end) key with
      | None => Returns (proto, ps ++ [(key, v)])
      | Some (DataProp _ true) => Returns (proto, ps ++ [(key, v)])
      | Some (DataProp _ false) =>
          Throws (ExnTypeError ("Cannot assign to read only property '" ++ key ++ "' of object")%string)
      | Some ProtoAccessor =>
          Returns (if is_object_or_null (to_value v)
                   then (match to_value v with VIntrinsic ObjectPrototype => None | _ => Some v end, ps)
                   else (proto, ps))
      | Some ThrowerAccessor => Throws (ExnTypeError restricted_message)
      end
  end.

(** The object [obj] as a value. *)
Definition object_value (obj : new_object value) : value :=
  match fst obj with
  | None => VObject (snd obj)
  | Some proto => VObjectP proto (snd obj)
  end.

(** ** The decoder of part_004, lines 1-653 *)

Module V1.
Import ErrorV1.

Definition D := Decoder DecodeError.

(** [formatIndex] of [src/src/error.ts]: an error whose [error] property is
    a string becomes [{ index, error: error.error, value: error.value }],
    any other one [[index, error]]. *)
Definition formatIndex (index : nat) (error : DecodeError) : DecodeError :=
  match get_data (to_value error) "error" with
  | VStr s => DESingle (Some index) s (Some (get_data (to_value error) "value"))
  | _ => DEIndexed index error
  end.

(** The [errors] object of [dict] and [object] as an error. *)
Definition keyed (errors : new_object DecodeError) : DecodeError :=
  match fst errors with
  | None => DEKeyed (snd errors)
  | Some proto => DEKeyedP proto (snd errors)
  end.

Section Guard.
(** [JSON.stringify], which the constructor of [ValidationFailedError]
    evaluates for its message (lines 16-23); it throws on a BigInt, on a
    cycle, or when a [toJSON] method throws, and is left abstract. *)
Variable JSON_stringify : DecodeError -> throws string.

(** [new ValidationFailedError(error)] *)
Definition newValidationFailedError (error : DecodeError) : throws exn :=
  _ <- JSON_stringify error ;; Returns (ExnValidationFailedV1 error).

(** [guard] (lines 152-157) *)
Definition guard {T} (this : Decoder DecodeError T) (data : value) : throws T :=
  result <- decoder this data ;;
  match result with
  | OK v => Returns v
  | FAIL e => ex <- newValidationFailedError e ;; Throws ex
  end.
End Guard.

Definition map {T S} (this : D T) (mapFunction : T -> throws S) : D S :=
  mkDecoder (fun data => r <- decoder this data ;; Result.map mapFunction r).

Definition default {T} (this : D T) (v : T) : D T :=
  mkDecoder (fun data =>
    result <- decoder this data ;;
    if Result.isOk result then Returns result else Returns (OK v)).

(** The [errors] accumulator of [createOneOf]: an array error is spread into
    it, any other error is pushed.  A [DEIndexed] error, the pair
    [[index, error]] that only [formatIndex] builds inside the errors of
    [array], is taken as a single error. *)
Definition push_error (errors : list DecodeError) (e : DecodeError) : list DecodeError :=
  match e with
  | DEList es => errors ++ es
  | _ => errors ++ [e]
  end.

Fixpoint createOneOf_loop {T} (decoders : list (D T)) (errors : list DecodeError)
    (data : value) : throws (Result T DecodeError) :=
  match decoders with
  | [] => Returns (FAIL (DEList errors))
  | next :: rest =>
      result <- decoder next data ;;
      match result with
      | OK v => Returns (OK v)
      | FAIL e => createOneOf_loop rest (push_error errors e) data
      end
  end.

(** [private static createOneOf] (lines 82-98) *)
Definition createOneOf {T} (decoders : list (D T)) : D T :=
  mkDecoder (fun data => createOneOf_loop decoders [] data).

(** What [oneOf] hands back: a decoder, or, for the empty list, the function
    [Decoder.ok] itself cast to a decoder (lines 116-124). *)
Inductive OneOfValue (T : Type) : Type :=
| IsDecoder (d : D T)
| IsOkFunction.
Arguments IsDecoder {T} d.
Arguments IsOkFunction {T}.

Definition oneOf {T} (decoders : list (D T)) : OneOfValue T :=
  match decoders with
  | [] => IsOkFunction
  | _ => IsDecoder (createOneOf decoders)
  end.

(** [run = (data) => this.decoder(data).get] (line 146) *)
Definition run {T} (this : D T) (data : value) : throws (Result T DecodeError) :=
  decoder this data.

(** [x.run(data)] on whatever [oneOf] returned: a function has no [run]
    property, so calling it throws a [TypeError]. *)
Definition run_oneOf_value {T} (x : OneOfValue T) (data : value)
  : throws (Result T DecodeError) :=
  match x with
  | IsDecoder d => run d data
  | IsOkFunction => Throws (ExnTypeError "run is not a function")
  end.

(** What [oneOf] returned, passed on to a combinator ([array], [field],
    [object], ...), which calls its [decoder] property: the function
    [Decoder.ok] has none, so the call throws a [TypeError]. *)
Definition as_decoder {T} (x : OneOfValue T) : D T :=
  match x with
  | IsDecoder d => d
  | IsOkFunction => mkDecoder (fun _ => Throws (ExnTypeError "decoder.decoder is not a function"))
  end.

(** [then] (lines 178-187) *)
Definition then_ {T S} (this : D T) (dependentDecoder : T -> throws (D S)) : D S :=
  mkDecoder (fun data =>
    result <- decoder this data ;;
    match result with
    | OK v => d <- dependentDecoder v ;; decoder d data
    | FAIL e => Returns (FAIL e)
    end).

(** [Decoder.fail = (message) => new Decoder(() => Result.fail({ error: message }))] *)
Definition fail {T} (message : string) : D T :=
  mkDecoder (fun _ => Returns (FAIL (DESingle None message None))).

(** [Decoder.ok = (value) => new Decoder(() => Result.ok(value))] *)
Definition ok {T} (v : T) : D T := mkDecoder (fun _ => Returns (OK v)).

(** [satisfy] (lines 203-219); an empty failure message is falsy. *)
Definition satisfy {T} (this : D T) (predicate : T -> throws bool)
    (failureMessage : option string) : D T :=
  then_ this (fun v =>
    b <- predicate v ;;
    if b then Returns (ok v)
    else
      let message := match failureMessage with
                     | Some m => if String.eqb m "" then "Not fulfilled predicate" else m
                     | None => "Not fulfilled predicate"
                     end in
      Returns (fail message)).

(** [Decoder.number] (lines 231-242) *)
Definition number : D jsnumber :=
  mkDecoder (fun data =>
    Returns match data with
    | VNum n => if negb (isNaN n) then OK n else FAIL (makeSingleError "Not a number" data)
    | VStr s =>
        if isStringNumber s then OK (parseFloat s)
        else FAIL (makeSingleError "Not a number" data)
    | _ => FAIL (makeSingleError "Not a number" data)
    end).

(** [Decoder.timestamp] (lines 284-287) *)
Definition timestamp : D jsnumber :=
  satisfy number (fun n => Returns (isInteger n)) (Some "Not a timestamp").

(** [Decoder.string] (lines 365-369) *)
Definition string' : D string :=
  mkDecoder (fun data =>
    Returns match data with
    | VStr s => OK s
    | _ => FAIL (makeSingleError "Not a string" data)
    end).

(** [Decoder.literalString] (lines 385-388) *)
Definition literalString (str : string) : D string :=
  then_ string' (fun incomingStr =>
    Returns (if String.eqb incomingStr str then ok str else fail ("Not " ++ str)%string)).

(** [Decoder.array] (lines 451-459) *)
Definition array {T} (d : D T) : D (list T) :=
  mkDecoder (fun data =>
    match array_items data with
    | Some items =>
        results <- map_throws (decoder d) items ;;
        Returns match Result.merge results formatIndex with
                | OK vs => OK vs
                | FAIL es => FAIL (DEList es)
                end
    | None => Returns (FAIL (makeSingleError "Not an array" data))
    end).

(** [Decoder.field] (lines 502-509); [{ [key]: e }] defines an own property,
    whatever the key. *)
Definition field {T} (key : string) (d : D T) : D T :=
  mkDecoder (fun data =>
    if is_object_nonnull data then
      x <- get_prop data key ;;
      r <- decoder d x ;;
      Result.mapError (fun e => Returns (DEKeyed [(key, e)])) r
    else Returns (FAIL (makeSingleError "Not an object" data))).

(** The [for (const key in data)] loop of [Decoder.dict], threading
    [decoded] and [errors]. *)
Fixpoint dict_loop (d : D value) (data : value) (keys : list string)
    (decoded : new_object value) (errors : new_object DecodeError)
  : throws (new_object value * new_object DecodeError) :=
  match keys with
  | [] => Returns (decoded, errors)
  | key :: rest =>
      x <- get_prop data key ;;
      result <- run d x ;;
      match result with
      | OK v =>
          decoded' <- set_prop (fun v => v) decoded key v ;;
          dict_loop d data rest decoded' errors
      | FAIL e =>
          errors' <- set_prop to_value errors key e ;;
          dict_loop d data rest decoded errors'
      end
  end.

(** [Decoder.dict] (lines 556-580); the decoded values are JavaScript
    values, and [Object.keys(errors)] counts the own keys of [errors]. *)
Definition dict (d : D value) : D value :=
  mkDecoder (fun data =>
    if is_object_nonnull data then
      acc <- dict_loop d data (for_in_keys data) (None, []) (None, []) ;;
      let '(decoded, errors) := acc in
      Returns (if (length (snd errors) =? 0)%nat then OK (object_value decoded)
               else FAIL (keyed errors))
    else Returns (FAIL (makeSingleError "Not an object" data))).

(** The [for (key in object)] loop of [Decoder.object]; the shape is listed in
    its enumeration order. *)
Fixpoint object_loop (shape : list (string * D value)) (data : value)
    (obj : new_object value) (errors : new_object DecodeError)
  : throws (new_object value * new_object DecodeError) :=
  match shape with
  | [] => Returns (obj, errors)
  | (key, d) :: rest =>
      x <- get_prop data key ;;
      result <- decoder d x ;;
      match result with
      | OK v =>
          obj' <- set_prop (fun v => v) obj key v ;;
          object_loop rest data obj' errors
      | FAIL e =>
          errors' <- set_prop to_value errors key e ;;
          object_loop rest data obj errors'
      end
  end.

(** [Decoder.object] (lines 611-635) *)
Definition object (shape : list (string * D value)) : D value :=
  mkDecoder (fun data =>
    if is_object_nonnull data then
      acc <- object_loop shape data (None, []) (None, []) ;;
      let '(obj, errors) := acc in
      Returns (if (length (snd errors) =? 0)%nat then OK (object_value obj)
               else FAIL (keyed errors))
    else Returns (FAIL (makeSingleError "Not an object" data))).

(** [Decoder.undefined] (lines 318-322) *)
Definition undefined : D value :=
  mkDecoder (fun data =>
    Returns match data with
    | VUndefined => OK data
    | _ => FAIL (makeSingleError "Not undefined" data)
    end).

(** [Decoder.null] (lines 334-338) *)
Definition null : D value :=
  mkDecoder (fun data =>
    Returns match data with
    | VNull => OK data
    | _ => FAIL (makeSingleError "Not null" data)
    end).

(** [Decoder.optional] (lines 402-407); [oneOf] of this non-empty array is
    [createOneOf] of it, and the union [T | undefined] is represented by
    [value]. *)
Definition optional (d : D value) : D value :=
  createOneOf [undefined; map null (fun _ => Returns VUndefined); d].

(** [Decoder.boolean] (lines 471-489) *)
Definition boolean : D bool :=
  mkDecoder (fun data =>
    Returns match data with
    | VBool b => OK b
    | VStr s =>
        if String.eqb s "true" then OK true
        else if String.eqb s "false" then OK false
        else FAIL (makeSingleError "Not a boolean" data)
    | _ => FAIL (makeSingleError "Not a boolean" data)
    end).

Section LiteralNumber.
(** The string conversion of a number in a template literal [`${number}`],
    left abstract. *)
Variable number_to_string : jsnumber -> string.

(** [Decoder.literalNumber] (lines 435-440) *)
Definition literalNumber (n : jsnumber) : D jsnumber :=
  then_ number (fun incomingNumber =>
    Returns (if num_strict_eq incomingNumber n then ok n
             else fail ("Not " ++ number_to_string n)%string)).
End LiteralNumber.

(** The [for (const item of array)] loop of [sequence], threading [failed]
    and [successful]. *)
Fixpoint sequence_loop {T} (this : D T) (items : list value)
    (failed : list value) (successful : list T) : throws (list value * list T) :=
  match items with
  | [] => Returns (failed, successful)
  | item :: rest =>
      result <- run this item ;;
      match result with
      | OK v => sequence_loop this rest failed (successful ++ [v])
      | FAIL _ => sequence_loop this rest (failed ++ [item]) successful
      end
  end.

(** [sequence] (lines 525-541); the returned [{ failed, successful }] is the
    pair [(failed, successful)]. *)
Definition sequence {T} (this : D T) (array : list value) : throws (list value * list T) :=
  sequence_loop this array [] [].
End V1.

(** ** The early decoder of [src/src/decoder.ts] (string errors) *)

Module DecoderTs.
Section Or.
(** The string conversion of a template literal [`${data}`], left abstract. *)
Variable template_string : value -> string.

(** [or] (lines 113-132); the union [T | S] is represented by one type. *)
Definition or {T} (this d : Decoder string T) : Decoder string T :=
  mkDecoder (fun data =>
    res1 <- decoder this data ;;
    match res1 with
    | OK _ => Returns res1
    | FAIL e1 =>
        res2 <- decoder d data ;;
        match res2 with
        | OK _ => Returns res2
        | FAIL e2 =>
            Returns (FAIL ("Failed to parse " ++ template_string data ++ ", got: "
                           ++ e2 ++ ", and: " ++ e1)%string)
        end
    end).
End Or.

(** [parseInt(string)] with no radix: skip leading white space, read an
    optional sign, then a [0x]/[0X] prefix switches to radix 16; the value is
    that of the longest prefix of digits of the radix, [NaN] when there is
    none. *)
Definition radix_digit (radix : Z) (c : ascii) : option Z :=
  let n := Z.of_nat (nat_of_ascii c) in
  let v := if ((48 <=? n) && (n <=? 57))%Z then Some (n - 48)%Z
           else if ((97 <=? n) && (n <=? 122))%Z then Some (n - 87)%Z
           else if ((65 <=? n) && (n <=? 90))%Z then Some (n - 55)%Z
           else None in
  match v with
  | Some d => if (d <? radix)%Z then Some d else None
  | None => None
  end.

Fixpoint radix_prefix_value (radix : Z) (acc : option Z) (s : string) : option Z :=
  match s with
  | EmptyString => acc
  | String c rest =>
      match radix_digit radix c with
      | Some d => radix_prefix_value radix (Some (radix * match acc with Some a => a | None => 0 end + d)) rest
      | None => acc
      end
  end%Z.

Definition parseInt (input : string) : jsnumber :=
  let s := trim_start input in
  let '(neg, r) := match s with
                   | String c rest =>
                       if Ascii.eqb c "-" then (true, rest)
                       else if Ascii.eqb c "+" then (false, rest) else (false, s)
                   | EmptyString => (false, s)
                   end in
  let '(radix, r') := match r with
                      | String "0" (String x rest) =>
                          if Ascii.eqb x "x" || Ascii.eqb x "X" then (16%Z, rest) else (10%Z, r)
                      | _ => (10%Z, r)
                      end in
  match radix_prefix_value radix None r' with
  | Some z => Fin (inject_Z (if neg then Z.opp z else z))
  | None => NaN
  end.

Section Number.
(** [ToNumber], the coercion the global [isNaN] applies to its argument,
    left abstract. *)
Variable to_number : value -> jsnumber.

(** [Decoder.number] (lines 204-214) *)
Definition number : Decoder string jsnumber :=
  mkDecoder (fun data =>
    Returns (if isNaN (to_number data) then FAIL "Not a number"
             else match data with
                  | VStr s => OK (parseInt s)
                  | VNum n => OK n
                  | _ => FAIL "Not a number"
                  end)).
End Number.

(** [Decoder.string] (lines 290-292) *)
Definition string' : Decoder string string :=
  mkDecoder (fun data =>
    Returns match data with
    | VStr s => OK s
    | _ => FAIL "Not a string"
    end).

(** [Decoder.null] (lines 233-238) *)
Definition null : Decoder string value :=
  mkDecoder (fun data =>
    Returns match data with
    | VNull | VUndefined => OK VNull
    | _ => FAIL "Not null or undefined"
    end).

(** [Decoder.literalString] (lines 248-259) *)
Definition literalString (str : string) : Decoder string string :=
  mkDecoder (fun data =>
    result <- decoder string' data ;;
    Returns match result with
    | OK s => if String.eqb s str then OK str else FAIL ("String is not " ++ str)%string
    | FAIL e => FAIL e
    end).

Definition newline : string := String (ascii_of_nat 10) EmptyString.

(** The [keyValue.reduce] of [Decoder.object], threading [errors] and the
    object [obj] it writes to; [Object.entries(object)] is the shape in its
    order. *)
Fixpoint object_loop (keyValue : list (string * Decoder string value)) (data : value)
    (obj : new_object value) (errors : list string)
  : throws (new_object value * list string) :=
  match keyValue with
  | [] => Returns (obj, errors)
  | (key, d) :: rest =>
      x <- get_prop data key ;;
      result <- decoder d x ;;
      match result with
      | OK v =>
          obj' <- set_prop (fun v => v) obj key v ;;
          object_loop rest data obj' errors
      | FAIL e => object_loop rest data obj (errors ++ [e])
      end
  end.

(** [Decoder.object] (lines 379-406) *)
Definition object (shape : list (string * Decoder string value)) : Decoder string value :=
  mkDecoder (fun data =>
    if is_object_nonnull data then
      acc <- object_loop shape data (None, []) [] ;;
      let '(obj, errors) := acc in
      Returns (if (length errors =? 0)%nat then OK (object_value obj)
               else FAIL ("Failed to parse, got errors: " ++ String.concat newline errors)%string)
    else Returns (FAIL "Not an object")).
End DecoderTs.

(** ** The decoder of part_004, lines 655-1203, and the renderer of part_003 *)

Module V2.
Import ErrorV2.

Definition D := Decoder DecodeError.

Definition message (e : DecodeError) : string := match e with DE m _ => m end.
Definition next (e : DecodeError) : option (list DecodeError) := match e with DE _ n => n end.

(** Modelled from the spec: [makeSingleError] of the [{message; next}] error
    module is not in the sources; a leaf error carries the message and no
    children (spec section 3). *)
Definition makeSingleError (m : string) : DecodeError := DE m None.

Definition newline : string := String (ascii_of_nat 10) EmptyString.

Fixpoint spaces (n : nat) : string :=
  match n with
  | O => EmptyString
  | S k => String " " (spaces k)
  end.

(** [const addSpaces = (pad, str) => ' '.repeat(pad) + str] *)
Definition addSpaces (pad : nat) (str : string) : string := (spaces pad ++ str)%string.

(** [createRenderer] (part_003 lines 5-13); [if (error.next)] holds for every
    array, the empty one included. *)
Fixpoint createRenderer (pad : nat) (error : DecodeError) : string :=
  match error with
  | DE m (Some nexts) =>
      (addSpaces pad m ++ ":" ++ newline
       ++ String.concat newline (List.map (createRenderer (pad + 2)) nexts))%string
  | DE m None => addSpaces pad m
  end.

Definition header : string := "Error(s) decoding data:".

(** [renderError] (part_003 lines 15-16) *)
Definition renderError (error : DecodeError) : string :=
  (header ++ newline ++ createRenderer 2 error)%string.

(** [run] (part_004 lines 792-798) *)
Definition run {T} (this : D T) (data : value) : throws (Result T string) :=
  result <- decoder this data ;;
  Result.mapError (fun error => Returns (header ++ newline ++ renderError error)%string) result.

Fixpoint createOneOf_loop {T} (decoders : list (D T)) (errs : list DecodeError)
    (data : value) : throws (Result T DecodeError) :=
  match decoders with
  | [] => Returns (FAIL (DE "Not decoded since" (Some errs)))
  | d :: rest =>
      result <- decoder d data ;;
      match result with
      | OK v => Returns (OK v)
      | FAIL e => createOneOf_loop rest (errs ++ [DE ("| " ++ message e) (next e)]) data
      end
  end.

(** [private static createOneOf] (part_004 lines 731-748) *)
Definition createOneOf {T} (decoders : list (D T)) : D T :=
  mkDecoder (fun data => createOneOf_loop decoders [] data).

(** [type NonEmptyArray<T> = [T, ...T[]]] *)
Definition NonEmptyArray (A : Type) : Type := (A * list A)%type.

(** [public static oneOf = (decoders: NonEmptyArray<T>) => Decoder.createOneOf(decoders)] *)
Definition oneOf {T} (decoders : NonEmptyArray (D T)) : D T :=
  createOneOf (fst decoders :: snd decoders).

Fixpoint object_loop (shape : list (string * D value)) (data : value)
    (obj : new_object value) (errs : list DecodeError)
  : throws (new_object value * list DecodeError) :=
  match shape with
  | [] => Returns (obj, errs)
  | (key, d) :: rest =>
      x <- get_prop data key ;;
      r <- decoder d x ;;
      result <- Result.mapError
                  (fun error => Returns (DE ("- Key '" ++ key ++ "', " ++ message error)
                                            (next error))) r ;;
      match result with
      | OK v =>
          obj' <- set_prop (fun v => v) obj key v ;;
          object_loop rest data obj' errs
      | FAIL e => object_loop rest data obj (errs ++ [e])
      end
  end.

(** [Decoder.object] (part_004 lines 1156-1186) *)
Definition object (shape : list (string * D value)) : D value :=
  mkDecoder (fun data =>
    if is_object_nonnull data then
      acc <- object_loop shape data (None, []) [] ;;
      let '(obj, errs) := acc in
      Returns (match errs with
               | [] => OK (object_value obj)
               | _ => FAIL (DE "Could not decode object" (Some errs))
               end)
    else Returns (FAIL (makeSingleError "Not an object"))).

(** [const isStringNumber = (n) => n.length !== 0 && n.match(/^[+-]?\d+(\.\d+)?$/) !== null]
    (part_004 lines 661-662): an optional sign, digits, and an optional
    fraction of at least one digit. *)
Definition isStringNumber (n : string) : bool :=
  negb (String.length n =? 0)%nat &&
  (let body := match n with
               | String c rest => if Ascii.eqb c "+" || Ascii.eqb c "-" then rest else n
               | EmptyString => n
               end in
   let (int, r) := span_digits body in
   negb (is_empty int) &&
   match r with
   | EmptyString => true
   | String c frac =>
       Ascii.eqb c "." && (let (fd, r') := span_digits frac in negb (is_empty fd) && is_empty r')
   end).

(** [Decoder.number] (part_004 lines 885-897) *)
Definition number : D jsnumber :=
  mkDecoder (fun data =>
    Returns match data with
    | VNum n => if negb (isNaN n) then OK n else FAIL (makeSingleError "Not a number")
    | VStr s =>
        if isStringNumber s then OK (parseFloat s)
        else FAIL (makeSingleError "Not a number")
    | _ => FAIL (makeSingleError "Not a number")
    end).

(** [Decoder.empty] (part_004 lines 971-975) *)
Definition empty : D value :=
  mkDecoder (fun data =>
    Returns match data with
    | VNull | VUndefined => OK VUndefined
    | _ => FAIL (makeSingleError "Not null or undefined")
    end).

(** [Decoder.optional] (part_004 lines 1023-1024); the union
    [T | undefined] is represented by [value]. *)
Definition optional (d : D value) : D value := oneOf (empty, [d]).

(** [Decoder.boolean] (part_004 lines 1085-1102) *)
Definition boolean : D bool :=
  mkDecoder (fun data =>
    Returns match data with
    | VBool b => OK b
    | VStr s =>
        if String.eqb s "true" then OK true
        else if String.eqb s "false" then OK false
        else FAIL (makeSingleError "Not a boolean")
    | _ => FAIL (makeSingleError "Not a boolean")
    end).

(** [Decoder.field] (part_004 lines 1116-1125) *)
Definition field {T} (key : string) (d : D T) : D T :=
  mkDecoder (fun data =>
    if is_object_nonnull data then
      x <- get_prop data key ;;
      r <- decoder d x ;;
      Result.mapError
        (fun error => Returns (makeSingleError ("Key '" ++ key ++ "', " ++ message error)%string)) r
    else Returns (FAIL (makeSingleError "Not an object"))).
End V2.

(** ** Vocabulary of the statements *)

(** The failing elements of a sequence of results, each with its position. *)
Fixpoint failures_from {T E} (i : nat) (vs : list (Result T E)) : list (nat * E) :=
  match vs with
  | [] => []
  | OK _ :: rest => failures_from (S i) rest
  | FAIL e :: rest => (i, e) :: failures_from (S i) rest
  end.

Definition failures {T E} (vs : list (Result T E)) : list (nat * E) := failures_from 0 vs.

(** The success values of a sequence of results, in order. *)
Definition successes {T E} (vs : list (Result T E)) : list T :=
  flat_map (fun r => match r with OK v => [v] | FAIL _ => [] end) vs.

(** [d.decoder(data[key])] *)
Definition decode_field {E T} (d : Decoder E T) (data : value) (key : string) : throws (Result T E) :=
  x <- get_prop data key ;; decoder d x.

(** The keys of a shape that decode, with their values, and those that fail,
    with their errors, given the result [res k] of each key's decoder. *)
Definition ok_entries {T E} (res : string -> Result T E) (keys : list string)
  : list (string * T) :=
  flat_map (fun k => match res k with OK v => [(k, v)] | FAIL _ => [] end) keys.

Definition failed_entries {T E} (res : string -> Result T E) (keys : list string)
  : list (string * E) :=
  flat_map (fun k => match res k with FAIL e => [(k, e)] | OK _ => [] end) keys.

(** The child error [Decoder.object] of part_004 (line 1168) makes of a failing key. *)
Definition key_error (p : string * ErrorV2.DecodeError) : ErrorV2.DecodeError :=
  ErrorV2.DE ("- Key '" ++ fst p ++ "', " ++ V2.message (snd p))%string (V2.next (snd p)).

(** The entries an error adds to the [errors] of [createOneOf] (part_004
    lines 82-98): those of an array error, or the error itself. *)
Definition spread_error (e : ErrorV1.DecodeError) : list ErrorV1.DecodeError :=
  match e with
  | ErrorV1.DEList es => es
  | _ => [e]
  end.

(** The child error [createOneOf] (part_004 lines 731-748) makes of a failing
    alternative. *)
Definition alternative_error (e : ErrorV2.DecodeError) : ErrorV2.DecodeError :=
  ErrorV2.DE ("| " ++ V2.message e)%string (V2.next e).

(** The items whose result is a failure, in order. *)
Definition failed_items {T E} (items : list value) (rs : list (Result T E)) : list value :=
  flat_map (fun p => match snd p with FAIL _ => [fst p] | OK _ => [] end) (combine items rs).

(** A user function that never throws. *)
Definition total {A B} (f : A -> throws B) : Prop := forall x, exists y, f x = Returns y.

(** A decoder that never throws, whatever its input. *)
Definition never_throws {E T} (d : Decoder E T) : Prop :=
  forall data, exists r, decoder d data = Returns r.

(** The lines of a rendered error tree, in pre-order, a node at depth [depth]
    indented by [2 + 2 * depth] spaces; a node with a [next] array gets a
    colon, and an empty [next] array leaves an empty line. *)
Fixpoint lines_of (depth : nat) (e : ErrorV2.DecodeError) : list string :=
  match e with
  | ErrorV2.DE m None => [V2.addSpaces (2 + 2 * depth) m]
  | ErrorV2.DE m (Some cs) =>
      (V2.addSpaces (2 + 2 * depth) m ++ ":")%string
        :: match cs with
           | [] => [""]
           | _ => flat_map (lines_of (S depth)) cs
           end
  end.

(** Induction over error trees, with a hypothesis for every child. *)
Definition DecodeError2_ind (P : ErrorV2.DecodeError -> Prop)
    (Hleaf : forall m, P (ErrorV2.DE m None))
    (Hnode : forall m cs, Forall P cs -> P (ErrorV2.DE m (Some cs))) :
    forall e, P e :=
  fix F e :=
    match e as e0 return P e0 with
    | ErrorV2.DE m None => Hleaf m
    | ErrorV2.DE m (Some cs) =>
        Hnode m cs
          ((fix G (l : list ErrorV2.DecodeError) : Forall P l :=
              match l with
              | [] => Forall_nil P
              | x :: r => Forall_cons x (F x) (G r)
              end) cs)
    end.




Fixpoint zeros (m : nat) : string :=
  match m with
  | O => EmptyString
  | S m' => String "0" (zeros m')
  end.








(** ** Theorems *)

(** *** Result.merge *)

Lemma merge_from_ok {T E} (f : nat -> E -> E) (vs : list (Result T E)) :
  forall i acc,
    Result.merge_from f i (OK acc) vs =
    match failures_from i vs with
    | [] => OK (acc ++ successes vs)
    | errs => FAIL (List.map (fun p => f (fst p) (snd p)) errs)
    end
with merge_from_fail {T E} (f : nat -> E -> E) (vs : list (Result T E)) :
  forall i pe,
    Result.merge_from f i (FAIL pe) vs =
    FAIL (pe ++ List.map (fun p => f (fst p) (snd p)) (failures_from i vs)).
Proof.
  - destruct vs as [|c rest]; intros i acc; simpl.
    + now rewrite app_nil_r.
    + destruct c as [v|e]; simpl.
      * rewrite merge_from_ok. destruct (failures_from (S i) rest); [|reflexivity].
        now rewrite <- app_assoc.
      * rewrite merge_from_fail. reflexivity.
  - destruct vs as [|c rest]; intros i pe; simpl.
    + now rewrite app_nil_r.
    + destruct c as [v|e]; simpl; rewrite merge_from_fail; [reflexivity|].
      now rewrite <- app_assoc.
Qed.

Lemma failures_from_nil_iff {T E} (vs : list (Result T E)) :
  forall i, failures_from i vs = [] <-> Forall (fun r => Result.isOk r = true) vs.
Proof.
  induction vs as [|c rest IH]; intros i; simpl.
  - split; auto.
  - destruct c as [v|e]; simpl.
    + rewrite IH. split; [intros H; now constructor | intros H; now inversion H].
    + split; [discriminate | intros H; inversion H; discriminate].
Qed.

(** C2: [Result.merge] returns [OK] of every success value, in order, exactly
    when every element is [OK]; otherwise it fails with one entry per failing
    element, in their original order, each built by [addErrorIndex] from the
    element's original index and error, and the success values are dropped. *)
Theorem merge_collects_all_failures {T E} (vs : list (Result T E)) (addErrorIndex : nat -> E -> E) :
  Result.merge vs addErrorIndex =
    match failures vs with
    | [] => OK (successes vs)
    | errs => FAIL (List.map (fun p => addErrorIndex (fst p) (snd p)) errs)
    end
  /\ ((exists l, Result.merge vs addErrorIndex = OK l) <-> Forall (fun r => Result.isOk r = true) vs).
Proof.
  assert (Hm : Result.merge vs addErrorIndex =
    match failures vs with
    | [] => OK (successes vs)
    | errs => FAIL (List.map (fun p => addErrorIndex (fst p) (snd p)) errs)
    end) by (unfold Result.merge, failures; now rewrite merge_from_ok).
  split; [exact Hm|].
  rewrite Hm. unfold failures. rewrite <- (failures_from_nil_iff vs 0).
  destruct (failures_from 0 vs); split.
  - reflexivity.
  - intros _. eauto.
  - intros [l' Hl]. discriminate.
  - discriminate.
Qed.

(** *** Ordered alternation *)

Lemma createOneOf_loop_first_success {T} (pre : list (V1.D T)) (d : V1.D T)
    (data : value) (v : T) :
  Forall (fun p => exists e, decoder p data = Returns (FAIL e)) pre ->
  decoder d data = Returns (OK v) ->
  forall post errors, V1.createOneOf_loop (pre ++ d :: post) errors data = Returns (OK v).
Proof.
  intros Hpre Hd. induction Hpre as [|p pre' [e He] _ IH]; intros post errors; simpl.
  - now rewrite Hd.
  - rewrite He. simpl. apply IH.
Qed.

(** C1: [oneOf] tries its decoders from left to right on the same input and
    returns the first success: when every decoder before [d] fails and [d]
    succeeds with [v], the alternation succeeds with [v] whatever the later
    decoders are (even ones that would throw, so they are not run).  The
    two-branch [or] of [src/src/decoder.ts] does the same. *)
Theorem oneOf_returns_first_success {T} (pre : list (V1.D T)) (d : V1.D T)
    (data : value) (v : T)
    (Hpre : Forall (fun p => exists e, decoder p data = Returns (FAIL e)) pre)
    (Hd : decoder d data = Returns (OK v)) :
  (forall post, V1.run_oneOf_value (V1.oneOf (pre ++ d :: post)) data = Returns (OK v))
  /\ (forall (template_string : value -> string) (a b : Decoder string T) (w : T),
        (decoder a data = Returns (OK w) ->
           decoder (DecoderTs.or template_string a b) data = Returns (OK w))
        /\ (forall e, decoder a data = Returns (FAIL e) -> decoder b data = Returns (OK w) ->
              decoder (DecoderTs.or template_string a b) data = Returns (OK w))).
Proof.
  split.
  - intros post.
    assert (Hne : V1.oneOf (pre ++ d :: post) = V1.IsDecoder (V1.createOneOf (pre ++ d :: post)))
      by (destruct pre; reflexivity).
    rewrite Hne. unfold V1.run_oneOf_value, V1.run, V1.createOneOf; simpl.
    now apply createOneOf_loop_first_success.
  - intros ts a b w. split.
    + intros Ha. simpl. now rewrite Ha.
    + intros e Ha Hb. simpl. rewrite Ha. simpl. now rewrite Hb.
Qed.

(** *** Object decoding *)

Lemma bind_assoc {A B C} (m : throws A) (f : A -> throws B) (g : B -> throws C) :
  bind (bind m f) g = bind m (fun x => bind (f x) g).
Proof. destruct m; reflexivity. Qed.

Lemma assoc_none {A} (k : string) (ps : list (string * A)) :
  ~ In k (List.map fst ps) -> assoc k ps = None.
Proof.
  induction ps as [|[k' v'] rest IH]; simpl; intros Hk; [reflexivity|].
  destruct (String.eqb_spec k k') as [->|Hne]; [exfalso; auto|].
  apply IH. auto.
Qed.

Lemma method_table_writable (methods : list (string * nat)) (k : string) (p : property) :
  method_table methods k = Some p -> exists v, p = DataProp v true.
Proof.
  unfold method_table. destruct (assoc k methods); intros H; [|discriminate].
  injection H as <-. eexists. reflexivity.
Qed.

(** Every property of [Object.prototype] but [__proto__] is a writable data
    property. *)
Lemma object_prototype_writable (k : string) (p : property) :
  k <> "__proto__" -> object_prototype_own k = Some p -> exists v, p = DataProp v true.
Proof.
  intros Hk. unfold object_prototype_own.
  destruct (String.eqb_spec k "__proto__") as [->|_]; [contradiction|].
  destruct (String.eqb k "constructor").
  - intros H. injection H as <-. eexists. reflexivity.
  - apply method_table_writable.
Qed.

Lemma lookup_object_prototype (k : string) :
  lookup (VIntrinsic ObjectPrototype) k = object_prototype_own k.
Proof.
  unfold lookup, lookup_intrinsic, intrinsic_own. destruct (object_prototype_own k); reflexivity.
Qed.

(** On an object the decoder created, whose prototype is still
    [Object.prototype], writing a new key other than [__proto__] appends it. *)
Lemma set_prop_fresh {A} (to_value : A -> value) (ps : list (string * A)) (k : string) (v : A) :
  ~ In k (List.map fst ps) -> k <> "__proto__" ->
  set_prop to_value (None, ps) k v = Returns (None, ps ++ [(k, v)]).
Proof.
  intros Hin Hk. unfold set_prop. rewrite (assoc_none k ps Hin), lookup_object_prototype.
  destruct (object_prototype_own k) as [p|] eqn:Ho; [|reflexivity].
  destruct (object_prototype_writable k p Hk Ho) as [w ->]. reflexivity.
Qed.

Lemma ok_entries_cons {T E} (res : string -> Result T E) k ks :
  ok_entries res (k :: ks) =
  match res k with OK v => [(k, v)] | FAIL _ => [] end ++ ok_entries res ks.
Proof. reflexivity. Qed.

Lemma failed_entries_cons {T E} (res : string -> Result T E) k ks :
  failed_entries res (k :: ks) =
  match res k with FAIL e => [(k, e)] | OK _ => [] end ++ failed_entries res ks.
Proof. reflexivity. Qed.

Lemma not_in_app_single (k k' : string) (l : list string) :
  ~ In k l -> k <> k' -> ~ In k (l ++ [k']).
Proof. intros H1 H2 H. apply in_app_or in H as [H|[H|[]]]; auto. Qed.

Lemma not_in_tail {A} (k : string) (p : string * A) (ps : list (string * A)) :
  ~ In k (List.map fst (p :: ps)) -> ~ In k (List.map fst ps).
Proof. intros H H'. apply H. now right. Qed.

Lemma object_loop_v1 (shape : list (string * V1.D value)) (data : value)
    (res : string -> Result value ErrorV1.DecodeError) :
  NoDup (List.map fst shape) -> ~ In "__proto__" (List.map fst shape) ->
  (forall k d, In (k, d) shape -> decode_field d data k = Returns (res k)) ->
  forall obj errs,
    (forall k, In k (List.map fst shape) -> ~ In k (List.map fst obj) /\ ~ In k (List.map fst errs)) ->
    V1.object_loop shape data (None, obj) (None, errs) =
    Returns ((None, obj ++ ok_entries res (List.map fst shape)),
             (None, errs ++ failed_entries res (List.map fst shape))).
Proof.
  induction shape as [|[k d] rest IH]; intros Hnd Hproto Hdec obj errs Hfresh.
  - simpl. now rewrite !app_nil_r.
  - change (List.map fst ((k, d) :: rest)) with (k :: List.map fst rest) in *.
    rewrite ok_entries_cons, failed_entries_cons.
    inversion Hnd as [|? ? Hk Hnd']; subst.
    assert (Hkp : k <> "__proto__") by (intros ->; apply Hproto; now left).
    assert (Hproto' : ~ In "__proto__" (List.map fst rest)) by (intros H; apply Hproto; now right).
    cbn [V1.object_loop]. rewrite <- bind_assoc.
    assert (Hk' : bind (get_prop data k) (decoder d) = Returns (res k))
      by exact (Hdec k d (or_introl eq_refl)).
    rewrite Hk'. cbn [bind].
    destruct (Hfresh k (or_introl eq_refl)) as [Hko Hke].
    destruct (res k) as [v|e].
    + rewrite set_prop_fresh by assumption. cbn [bind].
      rewrite IH; auto.
      * simpl. now rewrite <- app_assoc.
      * intros k' d' Hin. apply Hdec. now right.
      * intros k' Hin. destruct (Hfresh k' (or_intror Hin)) as [H1 H2].
        split; [|exact H2]. rewrite map_app. apply not_in_app_single; [exact H1|].
        intros ->. contradiction.
    + rewrite set_prop_fresh by assumption. cbn [bind].
      rewrite IH; auto.
      * simpl. now rewrite <- app_assoc.
      * intros k' d' Hin. apply Hdec. now right.
      * intros k' Hin. destruct (Hfresh k' (or_intror Hin)) as [H1 H2].
        split; [exact H1|]. rewrite map_app. apply not_in_app_single; [exact H2|].
        intros ->. contradiction.
Qed.

Lemma object_loop_v2 (shape : list (string * V2.D value)) (data : value)
    (res : string -> Result value ErrorV2.DecodeError) :
  NoDup (List.map fst shape) -> ~ In "__proto__" (List.map fst shape) ->
  (forall k d, In (k, d) shape -> decode_field d data k = Returns (res k)) ->
  forall obj errs,
    (forall k, In k (List.map fst shape) -> ~ In k (List.map fst obj)) ->
    V2.object_loop shape data (None, obj) errs =
    Returns ((None, obj ++ ok_entries res (List.map fst shape)),
             errs ++ List.map key_error (failed_entries res (List.map fst shape))).
Proof.
  induction shape as [|[k d] rest IH]; intros Hnd Hproto Hdec obj errs Hfresh.
  - simpl. now rewrite !app_nil_r.
  - change (List.map fst ((k, d) :: rest)) with (k :: List.map fst rest) in *.
    rewrite ok_entries_cons, failed_entries_cons.
    inversion Hnd as [|? ? Hk Hnd']; subst.
    assert (Hkp : k <> "__proto__") by (intros ->; apply Hproto; now left).
    assert (Hproto' : ~ In "__proto__" (List.map fst rest)) by (intros H; apply Hproto; now right).
    cbn [V2.object_loop]. rewrite <- bind_assoc.
    assert (Hk' : bind (get_prop data k) (decoder d) = Returns (res k))
      by exact (Hdec k d (or_introl eq_refl)).
    rewrite Hk'. cbn [bind].
    destruct (res k) as [v|e]; cbn [bind Result.mapError app].
    + rewrite set_prop_fresh; [cbn [bind]|exact (Hfresh k (or_introl eq_refl))|exact Hkp].
      rewrite IH; auto.
      * now rewrite <- app_assoc.
      * intros k' d' Hin. apply Hdec. now right.
      * intros k' Hin. rewrite map_app. apply not_in_app_single; [exact (Hfresh k' (or_intror Hin))|].
        intros ->. contradiction.
    + rewrite IH; auto.
      * now rewrite <- app_assoc.
      * intros k' d' Hin. apply Hdec. now right.
      * intros k' Hin. exact (Hfresh k' (or_intror Hin)).
Qed.

Lemma ok_entries_all_keys {T E} (res : string -> Result T E) (keys : list string) :
  failed_entries res keys = [] -> List.map fst (ok_entries res keys) = keys.
Proof.
  induction keys as [|k ks IH]; [reflexivity|].
  rewrite failed_entries_cons, ok_entries_cons. destruct (res k); simpl; [|discriminate].
  intros H. now rewrite IH.
Qed.

Lemma length_failed_entries {T E} (res : string -> Result T E) (keys : list string) :
  (length (failed_entries res keys) =? 0)%nat = match failed_entries res keys with [] => true | _ => false end.
Proof. destruct (failed_entries res keys); reflexivity. Qed.

(** C3: on an object input, [Decoder.object] runs the decoder of every
    declared key (it does not stop at a failing one), when no declared key
    is ["__proto__"].  With no failing key it succeeds with a record holding
    exactly the declared keys and their decoded values; extra input keys
    play no part.  Otherwise it fails with a composite error with one child
    per failing key: keyed by the key in the part_004 decoder of lines
    1-653, a ["- Key '...'"] child of ["Could not decode object"] in that of
    lines 655-1203.  A declared key ["__proto__"] breaks this: its
    assignment [errors["__proto__"] = e] sets the prototype of [errors] and
    adds no key, so in the first decoder the shape [{["__proto__"]: number}]
    succeeds on [{}] although [number] fails on [{}["__proto__"]]
    ([Object.prototype]); on success [obj["__proto__"] = 1] is ignored, so
    both decoders return [{}] on [{"__proto__": 1}], without the key. *)
Theorem object_decodes_every_key :
  (forall (shape : list (string * V1.D value)) (data : value)
          (res : string -> Result value ErrorV1.DecodeError),
     NoDup (List.map fst shape) -> ~ In "__proto__" (List.map fst shape) ->
     is_object_nonnull data = true ->
     (forall k d, In (k, d) shape -> decode_field d data k = Returns (res k)) ->
     V1.run (V1.object shape) data =
     Returns (match failed_entries res (List.map fst shape) with
              | [] => OK (VObject (ok_entries res (List.map fst shape)))
              | errs => FAIL (ErrorV1.DEKeyed errs)
              end))
  /\ (forall (shape : list (string * V2.D value)) (data : value)
            (res : string -> Result value ErrorV2.DecodeError),
       NoDup (List.map fst shape) -> ~ In "__proto__" (List.map fst shape) ->
       is_object_nonnull data = true ->
       (forall k d, In (k, d) shape -> decode_field d data k = Returns (res k)) ->
       decoder (V2.object shape) data =
       Returns (match failed_entries res (List.map fst shape) with
                | [] => OK (VObject (ok_entries res (List.map fst shape)))
                | errs => FAIL (ErrorV2.DE "Could not decode object" (Some (List.map key_error errs)))
                end))
  /\ (forall T E (res : string -> Result T E) (keys : list string),
        failed_entries res keys = [] -> List.map fst (ok_entries res keys) = keys)
  /\ decode_field (V1.map V1.number (fun n => Returns (VNum n))) (VObject []) "__proto__"
     = Returns (FAIL (ErrorV1.makeSingleError "Not a number" (VIntrinsic ObjectPrototype)))
  /\ V1.run (V1.object [("__proto__", V1.map V1.number (fun n => Returns (VNum n)))]) (VObject [])
     = Returns (OK (VObject []))
  /\ V1.run (V1.object [("__proto__", V1.map V1.number (fun n => Returns (VNum n)))])
       (VObject [("__proto__", VNum (Fin 1))])
     = Returns (OK (VObject []))
  /\ decoder (V2.object [("__proto__", mkDecoder (fun data =>
                 r <- decoder V2.number data ;; Result.map (fun n => Returns (VNum n)) r))])
       (VObject [("__proto__", VNum (Fin 1))])
     = Returns (OK (VObject [])).
Proof.
  split; [|split; [|split]].
  - intros shape data res Hnd Hproto Hobj Hdec. unfold V1.run, V1.object; cbn [decoder]. rewrite Hobj.
    rewrite (object_loop_v1 shape data res Hnd Hproto Hdec [] []) by (intros; split; auto).
    cbn [bind app snd fst]. rewrite length_failed_entries.
    destruct (failed_entries res (List.map fst shape)); reflexivity.
  - intros shape data res Hnd Hproto Hobj Hdec. unfold V2.object; cbn [decoder]. rewrite Hobj.
    rewrite (object_loop_v2 shape data res Hnd Hproto Hdec [] []) by (intros; auto).
    cbn [bind app]. destruct (failed_entries res (List.map fst shape)); reflexivity.
  - intros T E res keys. apply ok_entries_all_keys.
  - repeat split; vm_compute; reflexivity.
Qed.

(** *** Dependent decoding *)

(** C4: [d.then(f)] runs [d]; on success with [v] it runs the decoder [f(v)]
    on the original input (not on [v]); on failure it fails with [d]'s error
    unchanged. *)
Theorem then_reruns_on_original_input {T S} (d : V1.D T) (f : T -> V1.D S) (data : value) :
  (forall v, decoder d data = Returns (OK v) ->
     decoder (V1.then_ d (fun v => Returns (f v))) data = decoder (f v) data)
  /\ (forall e, decoder d data = Returns (FAIL e) ->
        decoder (V1.then_ d (fun v => Returns (f v))) data = Returns (FAIL e)).
Proof.
  split; intros x Hd; simpl; now rewrite Hd.
Qed.

(** *** Arrays through the object check *)

Lemma index_key_not_length (i : nat) : index_key i <> "length".
Proof.
  unfold index_key. intros H.
  pose proof (NilEmpty.usu (N.to_uint (N.of_nat i))) as Hu. rewrite H in Hu. discriminate Hu.
Qed.

Lemma array_index_value_index_key (i : nat) :
  (N.of_nat i < 4294967295)%N -> array_index_value (index_key i) = Some (N.of_nat i).
Proof.
  intros Hi. unfold array_index_value, index_key.
  rewrite NilEmpty.usu, DecimalN.Unsigned.of_to, String.eqb_refl.
  apply N.ltb_lt in Hi. now rewrite Hi.
Qed.

Lemma insert_index_last (n : N) (k : string) (acc : list (N * string)) :
  (forall m, In m (List.map fst acc) -> (m < n)%N) -> insert_index n k acc = acc ++ [(n, k)].
Proof.
  induction acc as [|[m k'] rest IH]; intros Hlt; [reflexivity|].
  cbn [insert_index]. pose proof (Hlt m (or_introl eq_refl)) as Hm.
  destruct (N.ltb_spec n m) as [H|_]; [lia|].
  rewrite IH; [reflexivity|]. intros m' Hm'. apply Hlt. now right.
Qed.

Lemma filter_all_false {A} (f : A -> bool) (l : list A) :
  (forall x, In x l -> f x = false) -> List.filter f l = [].
Proof.
  induction l as [|x rest IH]; intros H; [reflexivity|].
  cbn [List.filter]. rewrite (H x (or_introl eq_refl)). apply IH. intros y Hy. apply H. now right.
Qed.

(** The index keys of an array are already in the order of
    [OrdinaryOwnPropertyKeys]. *)
Lemma own_keys_index_keys (n : nat) :
  (N.of_nat n <= 4294967295)%N ->
  own_keys (List.map index_key (seq 0 n)) = List.map index_key (seq 0 n).
Proof.
  intros Hn. unfold own_keys.
  assert (Hfold : forall j, (j <= n)%nat ->
    fold_left (fun acc k => match array_index_value k with
                            | Some n => insert_index n k acc
                            | None => acc
                            end) (List.map index_key (seq 0 j)) []
    = List.map (fun i => (N.of_nat i, index_key i)) (seq 0 j)).
  { induction j as [|j IH]; intros Hj; [reflexivity|].
    rewrite seq_S, !map_app, fold_left_app, IH by lia. cbn [fold_left List.map].
    rewrite array_index_value_index_key by lia.
    apply insert_index_last. intros m Hm.
    rewrite map_map in Hm. apply in_map_iff in Hm as [i [<- Hi]].
    apply in_seq in Hi. cbn [fst]. lia. }
  rewrite (Hfold n (le_n n)), map_map. cbn [fst snd].
  rewrite filter_all_false, app_nil_r; [reflexivity|].
  intros k Hk. apply in_map_iff in Hk as [i [<- Hi]]. apply in_seq in Hi.
  rewrite array_index_value_index_key by lia. reflexivity.
Qed.

Lemma insert_index_perm (n : N) (k : string) (acc : list (N * string)) :
  Permutation (List.map snd (insert_index n k acc)) (List.map snd acc ++ [k]).
Proof.
  induction acc as [|[m k'] rest IH]; cbn [insert_index List.map]; [reflexivity|].
  destruct (n <? m)%N; cbn [List.map snd fst].
  - apply Permutation_cons_append.
  - cbn [app]. now apply perm_skip.
Qed.

Lemma own_keys_fold_perm (keys : list string) (acc : list (N * string)) :
  Permutation
    (List.map snd (fold_left (fun acc k => match array_index_value k with
                                           | Some n => insert_index n k acc
                                           | None => acc
                                           end) keys acc))
    (List.map snd acc
     ++ List.filter (fun k => match array_index_value k with Some _ => true | None => false end) keys).
Proof.
  revert acc. induction keys as [|k ks IH]; intros acc; cbn [fold_left List.filter].
  - now rewrite app_nil_r.
  - rewrite IH. destruct (array_index_value k) as [n|].
    + rewrite (insert_index_perm n k acc), <- app_assoc. reflexivity.
    + reflexivity.
Qed.

Lemma filter_partition_perm {A} (f g : A -> bool) (l : list A) :
  (forall x, g x = negb (f x)) -> Permutation (List.filter f l ++ List.filter g l) l.
Proof.
  intros Hg. induction l as [|x rest IH]; cbn [List.filter]; [reflexivity|].
  rewrite Hg. destruct (f x); cbn [negb app].
  - now apply perm_skip.
  - rewrite <- Permutation_middle. now apply perm_skip.
Qed.

(** The order of [OrdinaryOwnPropertyKeys] is a permutation of the keys. *)
Lemma own_keys_perm (keys : list string) : Permutation (own_keys keys) keys.
Proof.
  unfold own_keys. rewrite own_keys_fold_perm. cbn [List.map app].
  apply filter_partition_perm. intros k. now destruct (array_index_value k).
Qed.

Lemma assoc_in {A} (k : string) (ps : list (string * A)) :
  In k (List.map fst ps) -> exists v, assoc k ps = Some v.
Proof.
  induction ps as [|[k' v'] rest IH]; simpl; intros Hk; [contradiction|].
  destruct (String.eqb_spec k k') as [_|Hne]; [eauto|].
  apply IH. destruct Hk as [->|Hk]; [contradiction|exact Hk].
Qed.

Lemma map_fst_combine {A B} (xs : list A) (ys : list B) :
  length xs = length ys -> List.map fst (combine xs ys) = xs.
Proof.
  revert ys. induction xs as [|x xs IH]; intros [|y ys] H; simpl in *; try discriminate; auto.
  rewrite IH; auto.
Qed.

Lemma map_fst_array_entries (l : list value) :
  List.map fst (array_entries l) = List.map index_key (seq 0 (length l)).
Proof.
  unfold array_entries. apply map_fst_combine. now rewrite length_map, length_seq.
Qed.

(** Reading an index key, or a key that neither [Array.prototype] nor
    [Object.prototype] has, reads the same from an array as from the object
    of its entries. *)
Lemma get_prop_array_as_object (l : list value) (key : string) :
  In key (List.map index_key (seq 0 (length l))) \/ lookup (VIntrinsic ArrayPrototype) key = None ->
  get_prop (VArray l) key = get_prop (VObject (array_entries l)) key.
Proof.
  intros [Hin|Hnone].
  - assert (Hk : key <> "length").
    { apply in_map_iff in Hin as [i [<- _]]. apply index_key_not_length. }
    rewrite <- map_fst_array_entries in Hin. destruct (assoc_in _ _ Hin) as [v Hv].
    unfold get_prop, get_data. cbn [lookup]. unfold array_own.
    destruct (String.eqb_spec key "length") as [->|_]; [contradiction|].
    now rewrite Hv.
  - cbn [lookup] in Hnone. unfold lookup_intrinsic, intrinsic_own in Hnone.
    destruct (array_prototype_own key) eqn:Ha; [discriminate|].
    destruct (object_prototype_own key) eqn:Ho; [discriminate|].
    assert (Hk : key <> "length") by (intros ->; discriminate Ha).
    unfold get_prop, get_data. cbn [lookup]. unfold array_own.
    destruct (String.eqb_spec key "length") as [->|_]; [contradiction|].
    destruct (assoc key (array_entries l)); [reflexivity|].
    unfold lookup_intrinsic, intrinsic_own. now rewrite Ha, Ho.
Qed.

Lemma dict_loop_array_as_object (d : V1.D value) (l : list value) (keys : list string) :
  Forall (fun k => In k (List.map index_key (seq 0 (length l)))) keys ->
  forall decoded errors,
    V1.dict_loop d (VArray l) keys decoded errors
    = V1.dict_loop d (VObject (array_entries l)) keys decoded errors.
Proof.
  induction 1 as [|k ks Hk Hks IH]; intros decoded errors; [reflexivity|].
  cbn [V1.dict_loop]. rewrite (get_prop_array_as_object l k (or_introl Hk)).
  destruct (get_prop (VObject (array_entries l)) k) as [x|exn]; cbn [bind]; [|reflexivity].
  destruct (V1.run d x) as [[v|e]|exn]; cbn [bind]; [| |reflexivity].
  - destruct (set_prop _ decoded k v); cbn [bind]; auto.
  - destruct (set_prop _ errors k e); cbn [bind]; auto.
Qed.

Lemma for_in_keys_array_as_object (l : list value) :
  (N.of_nat (length l) <= 4294967295)%N ->
  for_in_keys (VObject (array_entries l)) = for_in_keys (VArray l).
Proof.
  intros Hl. cbn [for_in_keys]. rewrite map_fst_array_entries.
  now apply own_keys_index_keys.
Qed.

(** C10: the input check of [object], [dict] and [field]
    ([typeof data === 'object' && data !== null]) lets arrays through: the
    object decoder of an empty shape succeeds on any array with an empty
    record; [dict] treats an array (of at most 2^32 - 1 elements) as the
    mapping from its index keys ["0"], ["1"], ... to its elements; [field]
    does too for an index key, or a key that [Array.prototype] and
    [Object.prototype] do not have.  Other keys read the array's [length]
    or an inherited method: [field("map", undefined)] fails on [[]] and
    succeeds on [{}]. *)
Theorem array_passes_object_check (l : list value) :
  is_object_nonnull (VArray l) = true
  /\ V1.run (V1.object []) (VArray l) = Returns (OK (VObject []))
  /\ ((N.of_nat (length l) <= 4294967295)%N ->
      forall d : V1.D value,
        V1.run (V1.dict d) (VArray l) = V1.run (V1.dict d) (VObject (array_entries l)))
  /\ (forall T (d : V1.D T) (key : string),
        In key (List.map index_key (seq 0 (length l)))
        \/ lookup (VIntrinsic ArrayPrototype) key = None ->
        V1.run (V1.field key d) (VArray l) = V1.run (V1.field key d) (VObject (array_entries l)))
  /\ V1.run (V1.field "map" V1.undefined) (VArray [])
     = Returns (FAIL (ErrorV1.DEKeyed [("map", ErrorV1.makeSingleError "Not undefined" (VFunction "map" 1))]))
  /\ V1.run (V1.field "map" V1.undefined) (VObject []) = Returns (OK VUndefined).
Proof.
  split; [reflexivity|]. split; [reflexivity|]. split; [|split; [|split]].
  - intros Hl d. unfold V1.run, V1.dict. cbn [decoder].
    change (is_object_nonnull (VArray l)) with true.
    change (is_object_nonnull (VObject (array_entries l))) with true. cbv iota.
    rewrite (for_in_keys_array_as_object l Hl).
    rewrite dict_loop_array_as_object; [reflexivity|].
    apply Forall_forall. cbn [for_in_keys]. auto.
  - intros T d key Hk. unfold V1.run, V1.field. cbn [decoder].
    change (is_object_nonnull (VArray l)) with true.
    change (is_object_nonnull (VObject (array_entries l))) with true.
    now rewrite (get_prop_array_as_object l key Hk).
  - vm_compute. reflexivity.
  - vm_compute. reflexivity.
Qed.

(** *** Timestamps *)

(** C6: [timestamp] accepts negative infinity, as a number and as the string
    ["-Infinity"], because [isInteger] (line 7) only excludes positive
    infinity; positive infinity is rejected. *)
Theorem timestamp_accepts_negative_infinity :
  V1.run V1.number (VNum NegInf) = Returns (OK NegInf)
  /\ isInteger NegInf = true
  /\ V1.run V1.timestamp (VNum NegInf) = Returns (OK NegInf)
  /\ V1.run V1.timestamp (VStr "-Infinity") = Returns (OK NegInf)
  /\ (exists e, V1.run V1.timestamp (VNum PosInf) = Returns (FAIL e)).
Proof.
  split; [reflexivity|]. split; [reflexivity|]. split; [reflexivity|].
  split; [vm_compute; reflexivity|].
  eexists. reflexivity.
Qed.

(** *** Rendering of error trees *)

Lemma str_app_assoc (a b c : string) : ((a ++ b) ++ c)%string = (a ++ (b ++ c))%string.
Proof. induction a as [|ch a IH]; simpl; [reflexivity|]. now rewrite IH. Qed.

Lemma concat_app (sep : string) (a b : list string) :
  a <> [] -> b <> [] ->
  String.concat sep (a ++ b) = (String.concat sep a ++ sep ++ String.concat sep b)%string.
Proof.
  intros Ha Hb. induction a as [|x a IH]; [contradiction|].
  destruct a as [|y a'].
  - simpl. destruct b; [contradiction|]. reflexivity.
  - change ((x :: y :: a') ++ b) with (x :: ((y :: a') ++ b)).
    change (String.concat sep (x :: (y :: a') ++ b))
      with (x ++ sep ++ String.concat sep ((y :: a') ++ b))%string.
    change (String.concat sep (x :: y :: a'))
      with (x ++ sep ++ String.concat sep (y :: a'))%string.
    rewrite IH by discriminate. now rewrite !str_app_assoc.
Qed.

Lemma concat_flat_map {A} (sep : string) (f : A -> list string) (cs : list A) :
  (forall c, f c <> []) ->
  String.concat sep (List.map (fun c => String.concat sep (f c)) cs)
  = String.concat sep (flat_map f cs).
Proof.
  intros Hf. induction cs as [|c rest IH]; [reflexivity|].
  destruct rest as [|c' rest'].
  - simpl. now rewrite app_nil_r.
  - change (List.map (fun c => String.concat sep (f c)) (c :: c' :: rest'))
      with (String.concat sep (f c) :: List.map (fun c => String.concat sep (f c)) (c' :: rest')).
    change (String.concat sep (String.concat sep (f c)
                                 :: List.map (fun c => String.concat sep (f c)) (c' :: rest')))
      with (String.concat sep (f c) ++ sep
            ++ String.concat sep (List.map (fun c => String.concat sep (f c)) (c' :: rest')))%string.
    rewrite IH. change (flat_map f (c :: c' :: rest')) with (f c ++ flat_map f (c' :: rest')).
    rewrite concat_app; [reflexivity|apply Hf|].
    simpl. intros H. apply app_eq_nil in H as [H _]. exact (Hf c' H).
Qed.

Lemma lines_of_not_nil (depth : nat) (e : ErrorV2.DecodeError) : lines_of depth e <> [].
Proof. destruct e as [m [cs|]]; discriminate. Qed.

Lemma createRenderer_lines (e : ErrorV2.DecodeError) :
  forall depth, V2.createRenderer (2 + 2 * depth) e = String.concat V2.newline (lines_of depth e).
Proof.
  induction e as [m|m cs IH] using DecodeError2_ind; intros depth; [reflexivity|].
  cbn [V2.createRenderer lines_of].
  replace (2 + 2 * depth + 2)%nat with (2 + 2 * S depth)%nat by lia.
  destruct cs as [|c rest]; [cbn [String.concat List.map]; now rewrite str_app_assoc|].
  rewrite (map_ext_in _ (fun c => String.concat V2.newline (lines_of (S depth) c))).
  2:{ intros x Hx. rewrite Forall_forall in IH. exact (IH x Hx (S depth)). }
  rewrite (concat_flat_map V2.newline (lines_of (S depth)) (c :: rest) (lines_of_not_nil _)).
  change (match c :: rest with [] => [""] | _ => flat_map (lines_of (S depth)) (c :: rest) end)
    with (flat_map (lines_of (S depth)) (c :: rest)).
  assert (Hls : flat_map (lines_of (S depth)) (c :: rest) <> []).
  { simpl. intros H. apply app_eq_nil in H as [H _]. exact (lines_of_not_nil _ _ H). }
  destruct (flat_map (lines_of (S depth)) (c :: rest)) as [|l0 ls']; [contradiction|].
  cbn [String.concat]. now rewrite str_app_assoc.
Qed.

(** C9: [renderError] writes the constant header line, then the messages of
    the tree in pre-order, one per line, a node at depth [k] indented by
    [2 + 2k] spaces; it is a function of the tree alone.  But a node whose
    [next] is an array, even an empty one, gets a colon, and an empty array
    leaves an empty line: the tree of [src/test/error.test.ts], whose leaves
    have [next: []], renders with ["Key name, Not a number:"] followed by an
    empty line, not as the test expects.  [run] of part_004 (lines 792-798)
    puts the header once more in front of the rendering. *)
Theorem renderError_preorder :
  (forall e, V2.renderError e = String.concat V2.newline (V2.header :: lines_of 0 e))
  /\ (forall T (d : V2.D T) (data : value) (e : ErrorV2.DecodeError),
        decoder d data = Returns (FAIL e) ->
        V2.run d data
        = Returns (FAIL (String.concat V2.newline (V2.header :: V2.header :: lines_of 0 e))))
  /\ V2.renderError
       (ErrorV2.DE "Decoding errors in object"
          (Some [ErrorV2.DE "Key name, Not a number" (Some []);
                 ErrorV2.DE "Key Auth, Decoding errors in object"
                   (Some [ErrorV2.DE "Key JWT, Not a JWT token" (Some [])])]))
     = String.concat V2.newline
         ["Error(s) decoding data:"; "  Decoding errors in object:";
          "    Key name, Not a number:"; "";
          "    Key Auth, Decoding errors in object:";
          "      Key JWT, Not a JWT token:"; ""]
  /\ V2.renderError
       (ErrorV2.DE "Decoding errors in object"
          (Some [ErrorV2.DE "Key name, Not a number" (Some []);
                 ErrorV2.DE "Key Auth, Decoding errors in object"
                   (Some [ErrorV2.DE "Key JWT, Not a JWT token" (Some [])])]))
     <> String.concat V2.newline
          ["Error(s) decoding data:"; "  Decoding errors in object:";
           "    Key name, Not a number";
           "    Key Auth, Decoding errors in object:";
           "      Key JWT, Not a JWT token"].
Proof.
  assert (Hr : forall e, V2.renderError e = String.concat V2.newline (V2.header :: lines_of 0 e)).
  { intros e. unfold V2.renderError. rewrite (createRenderer_lines e 0 : V2.createRenderer 2 e = _).
    destruct (lines_of 0 e) as [|l0 ls] eqn:Hl; [exact (False_ind _ (lines_of_not_nil 0 e Hl))|].
    reflexivity. }
  split; [exact Hr|]. split; [|split; [vm_compute; reflexivity|vm_compute; discriminate]].
  intros T d data e Hd. unfold V2.run. rewrite Hd. cbn [bind Result.mapError].
  rewrite Hr. reflexivity.
Qed.

(** *** Exceptions out of [run] and [guard] *)

Lemma nt_number : never_throws V1.number.
Proof. intros x. eexists. reflexivity. Qed.

Lemma nt_string : never_throws V1.string'.
Proof. intros x. eexists. reflexivity. Qed.

Lemma nt_ok {T} (v : T) : never_throws (V1.ok v).
Proof. intros x. eexists. reflexivity. Qed.

Lemma nt_fail {T} (m : string) : never_throws (@V1.fail T m).
Proof. intros x. eexists. reflexivity. Qed.

Lemma nt_map {T S} (d : V1.D T) (f : T -> throws S) :
  never_throws d -> total f -> never_throws (V1.map d f).
Proof.
  intros Hd Hf x. destruct (Hd x) as [[v|e] Hr]; simpl; rewrite Hr; simpl.
  - destruct (Hf v) as [w Hw]. rewrite Hw. eexists. reflexivity.
  - eexists. reflexivity.
Qed.

Lemma nt_then {T S} (d : V1.D T) (f : T -> throws (V1.D S)) :
  never_throws d -> (forall v, exists d', f v = Returns d' /\ never_throws d') ->
  never_throws (V1.then_ d f).
Proof.
  intros Hd Hf x. destruct (Hd x) as [[v|e] Hr]; simpl; rewrite Hr; simpl.
  - destruct (Hf v) as [d' [Hd' Hnt]]. rewrite Hd'. exact (Hnt x).
  - eexists. reflexivity.
Qed.

Lemma nt_satisfy {T} (d : V1.D T) (p : T -> throws bool) (m : option string) :
  never_throws d -> total p -> never_throws (V1.satisfy d p m).
Proof.
  intros Hd Hp. apply nt_then; [exact Hd|]. intros v.
  destruct (Hp v) as [b Hb]. rewrite Hb. simpl. destruct b.
  - eexists. split; [reflexivity|]. apply nt_ok.
  - eexists. split; [reflexivity|]. apply nt_fail.
Qed.

Lemma nt_timestamp : never_throws V1.timestamp.
Proof.
  apply nt_satisfy; [apply nt_number|]. intros n. eexists. reflexivity.
Qed.

Lemma nt_literalString (str : string) : never_throws (V1.literalString str).
Proof.
  apply nt_then; [apply nt_string|]. intros v. eexists. split; [reflexivity|].
  destruct (String.eqb v str); [apply nt_ok|apply nt_fail].
Qed.

Lemma nt_default {T} (d : V1.D T) (v : T) : never_throws d -> never_throws (V1.default d v).
Proof.
  intros Hd x. destruct (Hd x) as [r Hr]. simpl. rewrite Hr. simpl.
  destruct (Result.isOk r); eexists; reflexivity.
Qed.

Lemma nt_createOneOf_loop {T} (ds : list (V1.D T)) :
  Forall never_throws ds -> forall errs x, exists r, V1.createOneOf_loop ds errs x = Returns r.
Proof.
  induction 1 as [|d ds Hd Hds IH]; intros errs x; simpl; [eexists; reflexivity|].
  destruct (Hd x) as [[v|e] Hr]; rewrite Hr; simpl; [eexists; reflexivity|apply IH].
Qed.

Lemma nt_createOneOf {T} (ds : list (V1.D T)) :
  Forall never_throws ds -> never_throws (V1.createOneOf ds).
Proof. intros H x. apply (nt_createOneOf_loop ds H [] x). Qed.

Lemma map_throws_total {A B} (f : A -> throws B) (l : list A) :
  total f -> exists ys, map_throws f l = Returns ys.
Proof.
  intros Hf. induction l as [|x rest IH]; simpl; [eexists; reflexivity|].
  destruct (Hf x) as [y Hy]. destruct IH as [ys Hys]. rewrite Hy. simpl. rewrite Hys.
  eexists. reflexivity.
Qed.

Lemma nt_array {T} (d : V1.D T) : never_throws d -> never_throws (V1.array d).
Proof.
  intros Hd x. simpl. destruct (array_items x) as [items|]; [|eexists; reflexivity].
  destruct (map_throws_total (decoder d) items Hd) as [rs Hrs]. rewrite Hrs. simpl.
  eexists. reflexivity.
Qed.

(** [field] does not throw on an input whose property [key] is not one of
    the throwing accessors. *)
Lemma nt_field_at {T} (key : string) (d : V1.D T) (x : value) :
  never_throws d -> lookup x key <> Some ThrowerAccessor ->
  exists r, V1.run (V1.field key d) x = Returns r.
Proof.
  intros Hd Hk. unfold V1.run. simpl. destruct (is_object_nonnull x); [|eexists; reflexivity].
  unfold get_prop. destruct (lookup x key) as [[v w| |]|]; try (exfalso; now apply Hk);
    cbn [bind]; destruct (Hd (get_data x key)) as [[v'|e] Hr]; rewrite Hr; simpl;
    eexists; reflexivity.
Qed.

Lemma guard_cases (JSON_stringify : ErrorV1.DecodeError -> throws string) {T} (d : V1.D T) (x : value) :
  (forall v, V1.run d x = Returns (OK v) -> V1.guard JSON_stringify d x = Returns v)
  /\ (forall e s, V1.run d x = Returns (FAIL e) -> JSON_stringify e = Returns s ->
        V1.guard JSON_stringify d x = Throws (ExnValidationFailedV1 e))
  /\ (forall e ex, V1.run d x = Returns (FAIL e) -> JSON_stringify e = Throws ex ->
        V1.guard JSON_stringify d x = Throws ex)
  /\ (forall ex, V1.run d x = Throws ex -> V1.guard JSON_stringify d x = Throws ex).
Proof.
  unfold V1.run, V1.guard. split; [|split; [|split]].
  - intros v H. now rewrite H.
  - intros e s H Hs. rewrite H. simpl. unfold V1.newValidationFailedError. now rewrite Hs.
  - intros e ex H Hs. rewrite H. simpl. unfold V1.newValidationFailedError. now rewrite Hs.
  - intros ex H. now rewrite H.
Qed.

Lemma map_propagates {T S} (d : V1.D T) (f : T -> throws S) (x : value) (v : T) (ex : exn) :
  V1.run d x = Returns (OK v) -> f v = Throws ex -> V1.run (V1.map d f) x = Throws ex.
Proof. unfold V1.run. intros H Hf. simpl. rewrite H. simpl. now rewrite Hf. Qed.

(** C7: [oneOf] of part_004 (lines 116-124) checks nothing when it is
    called with an empty list: it returns the function [Decoder.ok] cast to
    a decoder.  The contract violation surfaces only when that value is
    used: its [run] throws a [TypeError] on every input, and so does any
    combinator that calls its [decoder], such as
    [Decoder.array(Decoder.oneOf([]))] on [[1]]; on [[]] that array decoder
    succeeds.  A non-empty list gives [createOneOf].  The later [oneOf]
    (lines 766-769) takes a [NonEmptyArray], which only the type checker
    enforces: an empty list that reaches its [createOneOf] gives the runtime
    [DecodeError] ["Not decoded since"] with no children. *)
Theorem oneOf_empty_not_a_decoder :
  (forall T, @V1.oneOf T [] = V1.IsOkFunction)
  /\ (forall T (d : V1.D T) (ds : list (V1.D T)),
        V1.oneOf (d :: ds) = V1.IsDecoder (V1.createOneOf (d :: ds)))
  /\ (forall T (data : value),
        V1.run_oneOf_value (@V1.oneOf T []) data = Throws (ExnTypeError "run is not a function"))
  /\ V1.run (V1.array (V1.as_decoder (@V1.oneOf value []))) (VArray [VNum (Fin 1)])
     = Throws (ExnTypeError "decoder.decoder is not a function")
  /\ V1.run (V1.array (V1.as_decoder (@V1.oneOf value []))) (VArray []) = Returns (OK [])
  /\ (forall T (ds : V2.NonEmptyArray (V2.D T)),
        exists d rest, V2.oneOf ds = V2.createOneOf (d :: rest))
  /\ (forall T (x : value),
        decoder (@V2.createOneOf T []) x
        = Returns (FAIL (ErrorV2.DE "Not decoded since" (Some [])))).
Proof.
  split; [reflexivity|]. split; [reflexivity|]. split; [reflexivity|].
  split; [reflexivity|]. split; [reflexivity|]. split.
  - intros T [d rest]. exists d, rest. reflexivity.
  - intros T x. reflexivity.
Qed.

(** C8: [run] and [guard] can throw.  [run] does not throw on the decoders
    built from the primitives and from [map], [then], [satisfy], [default],
    [createOneOf] and [array] of part_004 (lines 1-653) as long as the user
    functions given to [map], [then] and [satisfy] do not throw, nor does
    [field] on an input whose property is not a throwing accessor; an
    exception thrown by a user function comes out of [run] unchanged.  But
    [Decoder.array(Decoder.oneOf([]))] throws a [TypeError] on [[1]], and
    [field("caller", number)] throws one on an object whose prototype is a
    function.  [guard] returns the value when [run] succeeds, rethrows what
    [run] throws, and when [run] fails it throws one [ValidationFailedError]
    carrying the error, unless [JSON.stringify] of the error (in its
    constructor) throws, which [guard] then throws instead. *)
Theorem run_total_guard_wraps :
  (never_throws V1.number /\ never_throws V1.string' /\ never_throws V1.timestamp
   /\ (forall T (v : T), never_throws (V1.ok v))
   /\ (forall T (m : string), never_throws (@V1.fail T m))
   /\ (forall str, never_throws (V1.literalString str)))
  /\ ((forall T S (d : V1.D T) (f : T -> throws S),
         never_throws d -> total f -> never_throws (V1.map d f))
      /\ (forall T S (d : V1.D T) (f : T -> throws (V1.D S)),
            never_throws d -> (forall v, exists d', f v = Returns d' /\ never_throws d') ->
            never_throws (V1.then_ d f))
      /\ (forall T (d : V1.D T) (p : T -> throws bool) (m : option string),
            never_throws d -> total p -> never_throws (V1.satisfy d p m))
      /\ (forall T (d : V1.D T) (v : T), never_throws d -> never_throws (V1.default d v))
      /\ (forall T (ds : list (V1.D T)), Forall never_throws ds -> never_throws (V1.createOneOf ds))
      /\ (forall T (d : V1.D T), never_throws d -> never_throws (V1.array d))
      /\ (forall T (key : string) (d : V1.D T) (x : value),
            never_throws d -> lookup x key <> Some ThrowerAccessor ->
            exists r, V1.run (V1.field key d) x = Returns r))
  /\ (forall T S (d : V1.D T) (f : T -> throws S) (x : value) (v : T) (ex : exn),
        V1.run d x = Returns (OK v) -> f v = Throws ex -> V1.run (V1.map d f) x = Throws ex)
  /\ V1.run (V1.array (V1.as_decoder (@V1.oneOf value []))) (VArray [VNum (Fin 1)])
     = Throws (ExnTypeError "decoder.decoder is not a function")
  /\ V1.run (V1.field "caller" V1.number) (VObjectP (VFunction "f" 0) [])
     = Throws (ExnTypeError restricted_message)
  /\ (forall JSON_stringify T (d : V1.D T) (x : value),
        (forall v, V1.run d x = Returns (OK v) -> V1.guard JSON_stringify d x = Returns v)
        /\ (forall e s, V1.run d x = Returns (FAIL e) -> JSON_stringify e = Returns s ->
              V1.guard JSON_stringify d x = Throws (ExnValidationFailedV1 e))
        /\ (forall e ex, V1.run d x = Returns (FAIL e) -> JSON_stringify e = Throws ex ->
              V1.guard JSON_stringify d x = Throws ex)
        /\ (forall ex, V1.run d x = Throws ex -> V1.guard JSON_stringify d x = Throws ex)).
Proof.
  split; [|split; [|split; [|split; [|split]]]].
  - repeat split; intros; auto using nt_number, nt_string, nt_timestamp, nt_ok, nt_fail,
      nt_literalString.
  - repeat split; intros.
    + now apply nt_map.
    + now apply nt_then.
    + now apply nt_satisfy.
    + now apply nt_default.
    + now apply nt_createOneOf.
    + now apply nt_array.
    + now apply nt_field_at.
  - intros T S d f x v ex. apply map_propagates.
  - reflexivity.
  - reflexivity.
  - intros js T d x. apply guard_cases.
Qed.

(** *** Decimal strings *)







Lemma length_zeros (m : nat) : String.length (zeros m) = m.
Proof. induction m; simpl; auto. Qed.
















Lemma digit_not_char (c d : ascii) : is_digit c = true -> is_digit d = false -> Ascii.eqb c d = false.
Proof.
  intros Hc Hd. destruct (Ascii.eqb_spec c d) as [->|_]; [congruence|reflexivity].
Qed.

Lemma digit_not_white (c : ascii) : is_digit c = true -> is_white c = false.
Proof.
  unfold is_digit, is_white. intros H. apply andb_true_iff in H as [H1 H2].
  apply Nat.leb_le in H1. apply Nat.leb_le in H2.
  apply not_true_iff_false. intros H.
  apply orb_true_iff in H as [H|H].
  - apply andb_true_iff in H as [_ H]. apply Nat.leb_le in H. lia.
  - apply Nat.eqb_eq in H. lia.
Qed.















(** *** Further properties of the decoders *)

(** [Result.andThen] chains like a monad bind: chaining is associative, [andThen] with [OK] gives the result back, and [andThen] with a function that wraps its value in [OK] is [Result.map]. *)
Theorem andThen_laws {T E V W} :
  (forall (r : Result T E) (f : T -> throws (Result V E)) (g : V -> throws (Result W E)),
     (x <- Result.andThen f r ;; Result.andThen g x) =
     Result.andThen (fun v => y <- f v ;; Result.andThen g y) r)
  /\ (forall (r : Result T E), Result.andThen (fun v => Returns (OK v)) r = Returns r)
  /\ (forall (r : Result T E) (f : T -> throws V),
        Result.andThen (fun v => y <- f v ;; Returns (OK y)) r = Result.map f r).
Proof.
  split; [|split]; intros r; destruct r as [v|e]; intros; reflexivity.
Qed.

(** Mapping a decoder twice is mapping it once with the composed function. *)
Theorem map_fusion {T S U} (d : V1.D T) (f : T -> throws S) (g : S -> throws U) (data : value) :
  decoder (V1.map (V1.map d f) g) data = decoder (V1.map d (fun x => y <- f x ;; g y)) data.
Proof.
  cbn. destruct (decoder d data) as [[v|e]|ex]; cbn; try reflexivity.
  destruct (f v); reflexivity.
Qed.

(** [then] is associative, [Decoder.ok(v).then(f)] runs [f(v)] on the input, and [d.then(ok)] behaves as [d]. *)
Theorem then_laws {T S U} :
  (forall (d : V1.D T) (f : T -> throws (V1.D S)) (g : S -> throws (V1.D U)) data,
     decoder (V1.then_ (V1.then_ d f) g) data =
     decoder (V1.then_ d (fun v => d' <- f v ;; Returns (V1.then_ d' g))) data)
  /\ (forall (v : T) (f : T -> throws (V1.D S)) data,
        decoder (V1.then_ (V1.ok v) f) data = (d' <- f v ;; decoder d' data))
  /\ (forall (d : V1.D T) data, decoder (V1.then_ d (fun v => Returns (V1.ok v))) data = decoder d data).
Proof.
  split; [|split]; intros.
  - cbn. destruct (decoder d data) as [[v|e]|ex]; cbn; try reflexivity.
    destruct (f v) as [d'|ex]; reflexivity.
  - reflexivity.
  - cbn. destruct (decoder d data) as [[v|e]|ex]; reflexivity.
Qed.

(** [d.default(v)] never fails: it returns the value of [d] when [d] succeeds and [v] when [d] fails. *)
Theorem default_never_fails {T} (d : V1.D T) (v : T) (data : value) :
  (forall e, decoder (V1.default d v) data <> Returns (FAIL e))
  /\ (forall x, decoder d data = Returns (OK x) -> decoder (V1.default d v) data = Returns (OK x))
  /\ (forall e, decoder d data = Returns (FAIL e) -> decoder (V1.default d v) data = Returns (OK v)).
Proof.
  cbn. split; [|split]; intros.
  - destruct (decoder d data) as [[x|e']|ex]; cbn; discriminate.
  - rewrite H. reflexivity.
  - rewrite H. reflexivity.
Qed.

(** When the predicate holds, [satisfy] returns the decoded value.  When it does not, [satisfy] fails with the given message, or with ["Not fulfilled predicate"] when the message is missing or empty.  The error carries no value. *)
Theorem satisfy_failure_message {T} (d : V1.D T) (p : T -> throws bool) (data : value) (v : T) :
  decoder d data = Returns (OK v) ->
  (p v = Returns true -> forall m, decoder (V1.satisfy d p m) data = Returns (OK v))
  /\ (p v = Returns false ->
      decoder (V1.satisfy d p None) data
        = Returns (FAIL (ErrorV1.DESingle None "Not fulfilled predicate" None))
      /\ decoder (V1.satisfy d p (Some "")) data
        = Returns (FAIL (ErrorV1.DESingle None "Not fulfilled predicate" None))
      /\ forall m, m <> "" ->
         decoder (V1.satisfy d p (Some m)) data = Returns (FAIL (ErrorV1.DESingle None m None))).
Proof.
  intros Hd. cbn. rewrite Hd. cbn. split.
  - intros Hp m. rewrite Hp. reflexivity.
  - intros Hp. rewrite Hp. cbn. split; [reflexivity|split; [reflexivity|]].
    intros m Hm. apply String.eqb_neq in Hm. rewrite Hm. reflexivity.
Qed.

(** [Decoder.boolean] (both part_004 decoders) accepts exactly the booleans and the strings ["true"] and ["false"].  It fails with ["Not a boolean"] on everything else. *)
Theorem boolean_accepts :
  (forall data b, decoder V1.boolean data = Returns (OK b) <->
     data = VBool b \/ (data = VStr "true" /\ b = true) \/ (data = VStr "false" /\ b = false))
  /\ (forall data, (exists b, decoder V1.boolean data = Returns (OK b))
        \/ decoder V1.boolean data = Returns (FAIL (ErrorV1.makeSingleError "Not a boolean" data)))
  /\ (forall data b, decoder V2.boolean data = Returns (OK b) <->
     data = VBool b \/ (data = VStr "true" /\ b = true) \/ (data = VStr "false" /\ b = false))
  /\ (forall data, (exists b, decoder V2.boolean data = Returns (OK b))
        \/ decoder V2.boolean data = Returns (FAIL (V2.makeSingleError "Not a boolean"))).
Proof.
  split; [|split; [|split]]; intros data; destruct data; cbn;
    try (intros b; split; [discriminate|intros [H|[[H _]|[H _]]]; discriminate]);
    try (right; reflexivity);
    try (intros b'; split; [intros H; injection H as <-; now left|intros [H|[[H _]|[H _]]]; congruence]);
    try (left; eexists; reflexivity).
  all: try (destruct (String.eqb_spec s "true") as [->|Ht];
       [ try (intros b; split; [intros H; injection H as <-; right; left; auto
                               |intros [H|[[_ H]|[H _]]]; [discriminate|now subst|discriminate]]);
         try (left; eexists; reflexivity)
       | destruct (String.eqb_spec s "false") as [->|Hf];
         [ try (intros b; split; [intros H; injection H as <-; right; right; auto
                                 |intros [H|[[H _]|[_ H]]]; [discriminate|discriminate|now subst]]);
           try (left; eexists; reflexivity)
         | try (intros b; split; [discriminate|intros [H|[[H _]|[H _]]]; congruence]);
           try (right; reflexivity) ] ]).
Qed.

(** [Decoder.optional(d)] (part_004, lines 402-407) returns [undefined] on [undefined] and on [null] without consulting [d].  On any other input it returns what [d] returns.  When [d] fails there, the error is the list of the ["Not undefined"] error, the ["Not null"] error, and the entries of [d]'s error. *)
Theorem optional_v1 (d : V1.D value) :
  decoder (V1.optional d) VUndefined = Returns (OK VUndefined)
  /\ decoder (V1.optional d) VNull = Returns (OK VUndefined)
  /\ forall data, data <> VUndefined -> data <> VNull ->
     decoder (V1.optional d) data =
       (r <- decoder d data ;;
        Returns match r with
        | OK v => OK v
        | FAIL e => FAIL (ErrorV1.DEList (ErrorV1.makeSingleError "Not undefined" data
                                          :: ErrorV1.makeSingleError "Not null" data
                                          :: spread_error e))
        end).
Proof.
  split; [reflexivity|split; [reflexivity|]].
  intros data Hu Hn.
  assert (H1 : decoder V1.undefined data = Returns (FAIL (ErrorV1.makeSingleError "Not undefined" data)))
    by (destruct data; try reflexivity; contradiction).
  assert (H2 : decoder V1.null data = Returns (FAIL (ErrorV1.makeSingleError "Not null" data)))
    by (destruct data; try reflexivity; contradiction).
  unfold V1.optional, V1.createOneOf. cbn [decoder V1.createOneOf_loop].
  rewrite H1. cbn [bind V1.map decoder]. rewrite H2. cbn.
  destruct (decoder d data) as [[v|e]|ex]; cbn; [reflexivity| |reflexivity].
  destruct e; reflexivity.
Qed.

(** On an object that neither has the key nor inherits it from
    [Object.prototype], [Decoder.field] runs its decoder on [undefined].  So
    [field(key, optional(d))] succeeds with [undefined], while [field(key, d)]
    fails with [d]'s error under the key when [d] rejects [undefined].  An
    inherited key is read from [Object.prototype]:
    [field("toString", optional(number))] fails on [{}]. *)
Theorem field_missing_key :
  (forall (key : string) (ps : list (string * value)),
     lookup (VObject ps) key = None ->
     (forall d, decoder (V1.field key (V1.optional d)) (VObject ps) = Returns (OK VUndefined))
     /\ (forall T (d : V1.D T) e, decoder d VUndefined = Returns (FAIL e) ->
           decoder (V1.field key d) (VObject ps) = Returns (FAIL (ErrorV1.DEKeyed [(key, e)]))))
  /\ exists e, decoder (V1.field "toString" (V1.optional (V1.map V1.number (fun n => Returns (VNum n)))))
                       (VObject []) = Returns (FAIL e).
Proof.
  split.
  - intros key ps Hk.
    assert (Hg : get_prop (VObject ps) key = Returns VUndefined)
      by (unfold get_prop, get_data; now rewrite Hk).
    split.
    + intros d. unfold V1.field. cbn [decoder]. change (is_object_nonnull (VObject ps)) with true.
      cbv iota beta. rewrite Hg. reflexivity.
    + intros T d e He. unfold V1.field. cbn [decoder]. change (is_object_nonnull (VObject ps)) with true.
      cbv iota beta. rewrite Hg. cbn [bind]. rewrite He. reflexivity.
  - eexists. vm_compute. reflexivity.
Qed.

(** [Decoder.literalNumber(n)] succeeds exactly when the number decoder accepts the input with a value strictly equal to [n], and it then returns [n]. *)
Theorem literalNumber_exact (number_to_string : jsnumber -> string) (n : jsnumber) :
  forall data m,
    decoder (V1.literalNumber number_to_string n) data = Returns (OK m) <->
    m = n /\ exists k, decoder V1.number data = Returns (OK k) /\ num_strict_eq k n = true.
Proof.
  intros data m. unfold V1.literalNumber, V1.then_. cbn [decoder].
  destruct (decoder V1.number data) as [[k|e]|ex] eqn:Hn; cbn.
  - destruct (num_strict_eq k n) eqn:Hkn; cbn.
    + split; [intros H; injection H as <-; eauto|intros [-> _]; reflexivity].
    + split; [discriminate|intros [_ [k' [Hk' Hkn']]]; injection Hk' as <-; congruence].
  - split; [discriminate|intros [_ [k' [Hk' _]]]; discriminate].
  - split; [discriminate|intros [_ [k' [Hk' _]]]; discriminate].
Qed.

(** [Decoder.literalNumber(NaN)] fails on every input, since no number is strictly equal to [NaN]. *)
Theorem literalNumber_NaN_rejects (number_to_string : jsnumber -> string) :
  forall data m, decoder (V1.literalNumber number_to_string NaN) data <> Returns (OK m).
Proof.
  intros data m. unfold V1.literalNumber, V1.then_. cbn [decoder].
  destruct (decoder V1.number data) as [[k|e]|ex]; cbn; try discriminate.
  replace (num_strict_eq k NaN) with false by (destruct k; reflexivity). discriminate.
Qed.

(** [Decoder.literalString(str)] (part_004 and [src/src/decoder.ts]) succeeds exactly on the string [str] and returns it.  Another string fails with ["Not str"] (part_004) or ["String is not str"] (decoder.ts).  A non-string fails with ["Not a string"]. *)
Theorem literalString_exact (str : string) :
  (forall data v, decoder (V1.literalString str) data = Returns (OK v) <-> data = VStr str /\ v = str)
  /\ (forall s, s <> str ->
        decoder (V1.literalString str) (VStr s) = Returns (FAIL (ErrorV1.DESingle None ("Not " ++ str) None)))
  /\ (forall data, (forall s, data <> VStr s) ->
        decoder (V1.literalString str) data = Returns (FAIL (ErrorV1.makeSingleError "Not a string" data)))
  /\ (forall data v, decoder (DecoderTs.literalString str) data = Returns (OK v) <-> data = VStr str /\ v = str)
  /\ (forall s, s <> str ->
        decoder (DecoderTs.literalString str) (VStr s) = Returns (FAIL ("String is not " ++ str)%string))
  /\ (forall data, (forall s, data <> VStr s) ->
        decoder (DecoderTs.literalString str) data = Returns (FAIL "Not a string")).
Proof.
  split; [|split; [|split; [|split; [|split]]]].
  - intros data v. split.
    + destruct data; cbn; try discriminate. destruct (String.eqb_spec s str) as [->|Hne]; cbn.
      * intros H; injection H as <-; auto.
      * discriminate.
    + intros [-> ->]. cbn. now rewrite String.eqb_refl.
  - intros s Hs. cbn. apply String.eqb_neq in Hs. now rewrite Hs.
  - intros data Hd. destruct data; try reflexivity. exfalso; eapply Hd; reflexivity.
  - intros data v. split.
    + destruct data; cbn; try discriminate. destruct (String.eqb_spec s str) as [->|Hne]; cbn.
      * intros H; injection H as <-; auto.
      * discriminate.
    + intros [-> ->]. cbn. now rewrite String.eqb_refl.
  - intros s Hs. cbn. apply String.eqb_neq in Hs. now rewrite Hs.
  - intros data Hd. destruct data; try reflexivity. exfalso; eapply Hd; reflexivity.
Qed.

(** On an array, [Decoder.array(d)] runs [d] on every element.  It succeeds with all the values when none fails.  Otherwise it fails with a list of one error per failing element, in order, each tagged with the element's index by [formatIndex].  A value that [Array.isArray] rejects fails with ["Not an array"]; [Array.prototype], an array with no elements, gives the empty list. *)
Theorem array_decodes_all_elements {T} (d : V1.D T) :
  (forall items, decoder (V1.array d) (VArray items) =
     (rs <- map_throws (decoder d) items ;;
      Returns match failures rs with
        | [] => OK (successes rs)
        | errs => FAIL (ErrorV1.DEList (List.map (fun p => V1.formatIndex (fst p) (snd p)) errs))
      end))
  /\ (forall data, array_items data = None ->
        decoder (V1.array d) data = Returns (FAIL (ErrorV1.makeSingleError "Not an array" data)))
  /\ decoder (V1.array d) (VIntrinsic ArrayPrototype) = Returns (OK []).
Proof.
  split; [|split].
  - intros items. cbn [decoder V1.array array_items].
    destruct (map_throws (decoder d) items) as [rs|ex]; cbn [bind]; [|reflexivity].
    unfold Result.merge, failures. rewrite merge_from_ok. cbn [app].
    destruct (failures_from 0 rs); reflexivity.
  - intros data Hd. cbn [decoder V1.array]. now rewrite Hd.
  - reflexivity.
Qed.

Lemma createOneOf_loop_all_fail_v1 {T} (ds : list (V1.D T)) (es : list ErrorV1.DecodeError) (data : value) :
  Forall2 (fun d e => decoder d data = Returns (FAIL e)) ds es ->
  forall errors, V1.createOneOf_loop ds errors data =
                 Returns (FAIL (ErrorV1.DEList (errors ++ flat_map spread_error es))).
Proof.
  induction 1 as [|d e ds' es' Hd Hrest IH]; intros errors; cbn.
  - now rewrite app_nil_r.
  - rewrite Hd. cbn [bind]. rewrite IH. rewrite app_assoc.
    f_equal. f_equal. f_equal. f_equal. destruct e; reflexivity.
Qed.

(** When every alternative fails, [createOneOf] (part_004 lines 82-98) fails with the list of all their errors in order; an alternative's list error contributes its entries. *)
Theorem createOneOf_all_fail_v1 {T} (ds : list (V1.D T)) (es : list ErrorV1.DecodeError) (data : value) :
  Forall2 (fun d e => decoder d data = Returns (FAIL e)) ds es ->
  decoder (V1.createOneOf ds) data = Returns (FAIL (ErrorV1.DEList (flat_map spread_error es))).
Proof.
  intros H. cbn [decoder V1.createOneOf]. now rewrite (createOneOf_loop_all_fail_v1 ds es data H []).
Qed.

Lemma createOneOf_loop_all_fail_v2 {T} (ds : list (V2.D T)) (es : list ErrorV2.DecodeError) (data : value) :
  Forall2 (fun d e => decoder d data = Returns (FAIL e)) ds es ->
  forall errs, V2.createOneOf_loop ds errs data =
               Returns (FAIL (ErrorV2.DE "Not decoded since" (Some (errs ++ List.map alternative_error es)))).
Proof.
  induction 1 as [|d e ds' es' Hd Hrest IH]; intros errs; cbn.
  - now rewrite app_nil_r.
  - rewrite Hd. cbn [bind]. rewrite IH. now rewrite <- app_assoc.
Qed.

(** When every alternative fails, [Decoder.oneOf] (part_004 lines 731-770) fails with ["Not decoded since"] and one child ["| message"] per alternative, in order, each keeping the alternative's children. *)
Theorem oneOf_all_fail_v2 {T} (d : V2.D T) (ds : list (V2.D T)) (e : ErrorV2.DecodeError)
    (es : list ErrorV2.DecodeError) (data : value) :
  Forall2 (fun d e => decoder d data = Returns (FAIL e)) (d :: ds) (e :: es) ->
  decoder (V2.oneOf (d, ds)) data =
  Returns (FAIL (ErrorV2.DE "Not decoded since" (Some (List.map alternative_error (e :: es))))).
Proof.
  intros H. cbn [decoder V2.oneOf V2.createOneOf fst snd].
  now rewrite (createOneOf_loop_all_fail_v2 (d :: ds) (e :: es) data H []).
Qed.

(** [Decoder.optional(d)] (part_004 lines 1023-1024) returns [undefined] on [undefined] and [null].  On any other input it returns what [d] returns.  When [d] fails, the error is ["Not decoded since"] with the children ["| Not null or undefined"] and ["| "] followed by [d]'s message. *)
Theorem optional_v2 (d : V2.D value) :
  decoder (V2.optional d) VUndefined = Returns (OK VUndefined)
  /\ decoder (V2.optional d) VNull = Returns (OK VUndefined)
  /\ forall data, data <> VUndefined -> data <> VNull ->
     decoder (V2.optional d) data =
       (r <- decoder d data ;;
        Returns match r with
        | OK v => OK v
        | FAIL e => FAIL (ErrorV2.DE "Not decoded since"
                            (Some [ErrorV2.DE "| Not null or undefined" None; alternative_error e]))
        end).
Proof.
  split; [reflexivity|split; [reflexivity|]].
  intros data Hu Hn.
  assert (H1 : decoder V2.empty data = Returns (FAIL (V2.makeSingleError "Not null or undefined")))
    by (destruct data; try reflexivity; contradiction).
  unfold V2.optional, V2.oneOf, V2.createOneOf. cbn [decoder fst snd V2.createOneOf_loop].
  rewrite H1. cbn [bind].
  destruct (decoder d data) as [[v|e]|ex]; reflexivity.
Qed.

(** [Decoder.field(key, d)] (part_004 lines 1116-1125) on an object returns [d]'s value on the property.  When [d] fails, the error is a single error ["Key 'key', "] followed by [d]'s message, and the children of [d]'s error are dropped.  An exception from reading the property comes out unchanged.  A non-object fails with ["Not an object"]. *)
Theorem field_v2_flattens_error {T} (key : string) (d : V2.D T) :
  (forall data e, is_object_nonnull data = true -> decode_field d data key = Returns (FAIL e) ->
     decoder (V2.field key d) data =
     Returns (FAIL (ErrorV2.DE ("Key '" ++ key ++ "', " ++ V2.message e) None)))
  /\ (forall data v, is_object_nonnull data = true -> decode_field d data key = Returns (OK v) ->
     decoder (V2.field key d) data = Returns (OK v))
  /\ (forall data ex, is_object_nonnull data = true -> get_prop data key = Throws ex ->
     decoder (V2.field key d) data = Throws ex)
  /\ (forall data, is_object_nonnull data = false ->
     decoder (V2.field key d) data = Returns (FAIL (ErrorV2.DE "Not an object" None))).
Proof.
  unfold decode_field. split; [|split; [|split]]; intros data.
  - intros e Ho Hd. cbn [decoder V2.field]. rewrite Ho.
    destruct (get_prop data key); cbn [bind] in *; [|discriminate]. rewrite Hd. reflexivity.
  - intros v Ho Hd. cbn [decoder V2.field]. rewrite Ho.
    destruct (get_prop data key); cbn [bind] in *; [|discriminate]. rewrite Hd. reflexivity.
  - intros ex Ho Hg. cbn [decoder V2.field]. rewrite Ho, Hg. reflexivity.
  - intros Ho. cbn [decoder V2.field]. rewrite Ho. reflexivity.
Qed.

(** [run] (part_004 lines 792-798) returns a success unchanged.  A failure becomes a message starting with the line ["Error(s) decoding data:"] twice, since [run] adds it before [renderError], which adds it again. *)
Theorem run_v2_repeats_header {T} (d : V2.D T) (data : value) :
  (forall e, decoder d data = Returns (FAIL e) ->
     V2.run d data = Returns (FAIL (V2.header ++ V2.newline ++ V2.header ++ V2.newline
                                   ++ V2.createRenderer 2 e)%string))
  /\ (forall v, decoder d data = Returns (OK v) -> V2.run d data = Returns (OK v)).
Proof.
  split; intros x H; unfold V2.run; rewrite H; reflexivity.
Qed.

Lemma dict_loop_keys (d : V1.D value) (data : value)
    (res : string -> Result value ErrorV1.DecodeError) (keys : list string) :
  NoDup keys -> ~ In "__proto__" keys ->
  (forall k, In k keys -> decode_field d data k = Returns (res k)) ->
  forall decoded errs,
    (forall k, In k keys -> ~ In k (List.map fst decoded) /\ ~ In k (List.map fst errs)) ->
    V1.dict_loop d data keys (None, decoded) (None, errs) =
    Returns ((None, decoded ++ ok_entries res keys), (None, errs ++ failed_entries res keys)).
Proof.
  induction keys as [|k rest IH]; intros Hnd Hproto Hdec decoded errs Hfresh.
  - cbn. now rewrite !app_nil_r.
  - rewrite ok_entries_cons, failed_entries_cons.
    inversion Hnd as [|? ? Hk Hnd']; subst.
    assert (Hkp : k <> "__proto__") by (intros ->; apply Hproto; now left).
    assert (Hproto' : ~ In "__proto__" rest) by (intros H; apply Hproto; now right).
    cbn [V1.dict_loop]. unfold V1.run. rewrite <- bind_assoc.
    assert (Hk' : bind (get_prop data k) (decoder d) = Returns (res k))
      by exact (Hdec k (or_introl eq_refl)).
    rewrite Hk'. cbn [bind].
    destruct (Hfresh k (or_introl eq_refl)) as [Hko Hke].
    destruct (res k) as [v|e].
    + rewrite set_prop_fresh by assumption. cbn [bind].
      rewrite IH; auto.
      * cbn. now rewrite <- app_assoc.
      * intros k' Hin. apply Hdec. now right.
      * intros k' Hin. destruct (Hfresh k' (or_intror Hin)) as [H1 H2].
        split; [|exact H2]. rewrite map_app. apply not_in_app_single; [exact H1|].
        intros ->. contradiction.
    + rewrite set_prop_fresh by assumption. cbn [bind].
      rewrite IH; auto.
      * cbn. now rewrite <- app_assoc.
      * intros k' Hin. apply Hdec. now right.
      * intros k' Hin. destruct (Hfresh k' (or_intror Hin)) as [H1 H2].
        split; [exact H1|]. rewrite map_app. apply not_in_app_single; [exact H2|].
        intros ->. contradiction.
Qed.

Lemma assoc_in_nodup {A} (ps : list (string * A)) (k : string) (v : A) :
  NoDup (List.map fst ps) -> In (k, v) ps -> assoc k ps = Some v.
Proof.
  induction ps as [|[k' v'] rest IH]; cbn; [intros _ []|].
  intros Hnd Hin. inversion Hnd as [|? ? Hk' Hnd']; subst.
  destruct Hin as [Heq|Hin].
  - injection Heq as -> ->. now rewrite String.eqb_refl.
  - destruct (String.eqb_spec k k') as [->|Hne].
    + exfalso. apply Hk'. apply (in_map fst) in Hin. exact Hin.
    + now apply IH.
Qed.

(** On an object with distinct keys, none of them [__proto__],
    [Decoder.dict(d)] runs [d] on every value, visiting the keys in the
    order of [for ... in]: the array-index keys in ascending order, then the
    others in the object's order.  It succeeds with all the entries when none
    fails.  Otherwise it fails with an error keyed by every failing key, in
    that order.  A key [__proto__] is not copied: its value, when it is not
    an object, is dropped by the [__proto__] setter of the result. *)
Theorem dict_decodes_every_entry :
  (forall (d : V1.D value) (ps : list (string * value))
          (res : string -> Result value ErrorV1.DecodeError),
     NoDup (List.map fst ps) -> ~ In "__proto__" (List.map fst ps) ->
     (forall k v, In (k, v) ps -> decoder d v = Returns (res k)) ->
     decoder (V1.dict d) (VObject ps) =
     Returns (match failed_entries res (for_in_keys (VObject ps)) with
              | [] => OK (VObject (ok_entries res (for_in_keys (VObject ps))))
              | errs => FAIL (ErrorV1.DEKeyed errs)
              end))
  /\ for_in_keys (VObject [("b", VNum (Fin 1)); ("1", VNum (Fin 2))]) = ["1"; "b"]
  /\ decoder (V1.dict (V1.map V1.string' (fun s => Returns (VStr s))))
             (VObject [("__proto__", VStr "x")])
     = Returns (OK (VObject [])).
Proof.
  split; [|split; [vm_compute; reflexivity|vm_compute; reflexivity]].
  intros d ps res Hnd Hproto Hdec.
  cbn [decoder V1.dict]. change (is_object_nonnull (VObject ps)) with true. cbv iota beta.
  pose proof (own_keys_perm (List.map fst ps)) as Hperm.
  change (own_keys (List.map fst ps)) with (for_in_keys (VObject ps)) in Hperm.
  assert (HndK : NoDup (for_in_keys (VObject ps)))
    by exact (Permutation_NoDup (Permutation_sym Hperm) Hnd).
  assert (HprotoK : ~ In "__proto__" (for_in_keys (VObject ps)))
    by (intros H; apply Hproto; exact (Permutation_in _ Hperm H)).
  assert (Hk : forall k, In k (for_in_keys (VObject ps)) ->
                 decode_field d (VObject ps) k = Returns (res k)).
  { intros k Hk. apply (Permutation_in _ Hperm) in Hk.
    apply in_map_iff in Hk as [[k' v] [Hk' Hin]]. cbn in Hk'. subst k'.
    unfold decode_field, get_prop, get_data. cbn [lookup].
    rewrite (assoc_in_nodup ps k v Hnd Hin). cbn [bind]. now apply (Hdec k v). }
  rewrite (dict_loop_keys d (VObject ps) res _ HndK HprotoK Hk [] [])
    by (intros; split; auto).
  cbn [bind app snd fst]. destruct (failed_entries res (for_in_keys (VObject ps))); reflexivity.
Qed.

Lemma sequence_loop_results {T} (d : V1.D T) (items : list value) :
  forall failed successful,
    V1.sequence_loop d items failed successful =
    (rs <- map_throws (decoder d) items ;;
     Returns (failed ++ failed_items items rs, successful ++ successes rs)).
Proof.
  induction items as [|item rest IH]; intros failed successful; cbn.
  - now rewrite !app_nil_r.
  - unfold V1.run. destruct (decoder d item) as [[v|e]|ex]; cbn [bind]; [| |reflexivity].
    + rewrite IH. destruct (map_throws (decoder d) rest) as [rs|ex]; cbn; [|reflexivity].
      unfold failed_items. cbn. now rewrite <- app_assoc.
    + rewrite IH. destruct (map_throws (decoder d) rest) as [rs|ex]; cbn; [|reflexivity].
      unfold failed_items. cbn. now rewrite <- app_assoc.
Qed.

Lemma map_throws_length {A B} (f : A -> throws B) (l : list A) (ys : list B) :
  map_throws f l = Returns ys -> length ys = length l.
Proof.
  revert ys; induction l as [|x rest IH]; intros ys; cbn.
  - now intros [= <-].
  - destruct (f x) as [y|ex]; cbn; [|discriminate].
    destruct (map_throws f rest) as [ys'|ex] eqn:Hr; cbn; [|discriminate].
    intros [= <-]. cbn. now rewrite (IH ys' eq_refl).
Qed.

Lemma failed_items_successes_length {T E} (items : list value) (rs : list (Result T E)) :
  length rs = length items ->
  (length (failed_items items rs) + length (successes rs))%nat = length items.
Proof.
  revert rs; induction items as [|x rest IH]; intros [|r rs] Hl; cbn in *; try discriminate; auto.
  injection Hl as Hl. unfold failed_items, successes in *. cbn.
  destruct r; cbn; rewrite ?length_app; cbn; specialize (IH rs Hl); lia.
Qed.

(** [sequence] runs the decoder on every item, in order.  [failed] holds the items it rejects and [successful] the values it decodes, so each item lands in exactly one of the two lists. *)
Theorem sequence_partitions {T} (d : V1.D T) (items : list value) :
  V1.sequence d items =
  (rs <- map_throws (decoder d) items ;; Returns (failed_items items rs, successes rs))
  /\ (forall failed successful, V1.sequence d items = Returns (failed, successful) ->
        (length failed + length successful)%nat = length items).
Proof.
  assert (Hs : V1.sequence d items =
    (rs <- map_throws (decoder d) items ;; Returns (failed_items items rs, successes rs)))
    by (unfold V1.sequence; rewrite sequence_loop_results; reflexivity).
  split; [exact Hs|].
  intros failed successful. rewrite Hs.
  destruct (map_throws (decoder d) items) as [rs|ex] eqn:Hm; cbn; [|discriminate].
  intros [= <- <-]. apply failed_items_successes_length. exact (map_throws_length _ _ _ Hm).
Qed.

Lemma object_loop_ts (shape : list (string * Decoder string value)) (data : value)
    (res : string -> Result value string) :
  NoDup (List.map fst shape) -> ~ In "__proto__" (List.map fst shape) ->
  (forall k d, In (k, d) shape -> decode_field d data k = Returns (res k)) ->
  forall obj errs,
    (forall k, In k (List.map fst shape) -> ~ In k (List.map fst obj)) ->
    DecoderTs.object_loop shape data (None, obj) errs =
    Returns ((None, obj ++ ok_entries res (List.map fst shape)),
             errs ++ List.map snd (failed_entries res (List.map fst shape))).
Proof.
  induction shape as [|[k d] rest IH]; intros Hnd Hproto Hdec obj errs Hfresh.
  - simpl. now rewrite !app_nil_r.
  - change (List.map fst ((k, d) :: rest)) with (k :: List.map fst rest) in *.
    rewrite ok_entries_cons, failed_entries_cons.
    inversion Hnd as [|? ? Hk Hnd']; subst.
    assert (Hkp : k <> "__proto__") by (intros ->; apply Hproto; now left).
    assert (Hproto' : ~ In "__proto__" (List.map fst rest)) by (intros H; apply Hproto; now right).
    cbn [DecoderTs.object_loop]. rewrite <- bind_assoc.
    assert (Hk' : bind (get_prop data k) (decoder d) = Returns (res k))
      by exact (Hdec k d (or_introl eq_refl)).
    rewrite Hk'. cbn [bind].
    destruct (res k) as [v|e].
    + rewrite set_prop_fresh; [cbn [bind]|exact (Hfresh k (or_introl eq_refl))|exact Hkp].
      rewrite IH; auto.
      * cbn. now rewrite <- app_assoc.
      * intros k' d' Hin. apply Hdec. now right.
      * intros k' Hin. rewrite map_app. apply not_in_app_single; [exact (Hfresh k' (or_intror Hin))|].
        intros ->. contradiction.
    + rewrite IH; auto.
      * cbn. now rewrite <- app_assoc.
      * intros k' d' Hin. apply Hdec. now right.
      * intros k' Hin. exact (Hfresh k' (or_intror Hin)).
Qed.

(** The [Decoder.object] of [src/src/decoder.ts] runs the decoder of every key of the shape on an object, when the shape's keys are distinct and none is [__proto__].  It succeeds with the decoded keys when none fails.  Otherwise it fails with ["Failed to parse, got errors: "] followed by the failing keys' errors joined by newlines, in the shape's order.  A decoded [__proto__] key is not copied: [obj["__proto__"] = 1] only meets the [__proto__] setter. *)
Theorem object_ts_joins_errors :
  (forall (shape : list (string * Decoder string value)) (data : value)
          (res : string -> Result value string),
     NoDup (List.map fst shape) -> ~ In "__proto__" (List.map fst shape) ->
     is_object_nonnull data = true ->
     (forall k d, In (k, d) shape -> decode_field d data k = Returns (res k)) ->
     decoder (DecoderTs.object shape) data =
     Returns (match failed_entries res (List.map fst shape) with
              | [] => OK (VObject (ok_entries res (List.map fst shape)))
              | errs => FAIL ("Failed to parse, got errors: "
                              ++ String.concat DecoderTs.newline (List.map snd errs))%string
              end))
  /\ decoder (DecoderTs.object [("__proto__", @mkDecoder string value (fun x => Returns (OK x)))])
             (VObject [("__proto__", VNum (Fin 1))])
     = Returns (OK (VObject [])).
Proof.
  split; [|vm_compute; reflexivity].
  intros shape data res Hnd Hproto Hobj Hdec. cbn [decoder DecoderTs.object]. rewrite Hobj.
  rewrite (object_loop_ts shape data res Hnd Hproto Hdec [] []) by (intros; auto).
  cbn. destruct (failed_entries res (List.map fst shape)); reflexivity.
Qed.

Lemma match_decimal_start (r : string) :
  match_decimal r = true ->
  exists c rest, r = String c rest /\ (is_digit c = true \/ c = "."%char).
Proof.
  destruct r as [|c rest]; [discriminate|]. intros H. exists c, rest. split; [reflexivity|].
  destruct (is_digit c) eqn:Hd; [now left|right].
  unfold match_decimal in H. cbn [span_digits] in H. rewrite Hd in H.
  destruct (Ascii.eqb_spec c "."); [assumption|]. cbn in H. discriminate.
Qed.

Lemma match_decimal_parse (r : string) :
  match_decimal r = true -> exists q, parse_unsigned_decimal r = Some q.
Proof.
  unfold match_decimal, parse_unsigned_decimal.
  destruct (span_digits r) as [int r1].
  destruct r1 as [|c r2].
  - intros H. destruct int; [discriminate|]. eexists; reflexivity.
  - destruct (Ascii.eqb c "."); cbn [andb].
    + destruct (span_digits r2) as [frac r3]. intros H.
      destruct frac; [discriminate|]. rewrite andb_false_r. eexists; reflexivity.
    + intros H. destruct int; [discriminate|]. eexists; reflexivity.
Qed.

Lemma decimal_start_chars (c : ascii) :
  is_digit c = true \/ c = "."%char ->
  Ascii.eqb c "I" = false /\ Ascii.eqb c "-" = false /\ Ascii.eqb c "+" = false /\ is_white c = false.
Proof.
  intros [Hd| ->]; [|repeat split; reflexivity].
  repeat split; try (apply digit_not_char; [exact Hd|reflexivity]).
  now apply digit_not_white.
Qed.

Lemma prefix_Infinity_decimal (c : ascii) (rest : string) :
  Ascii.eqb c "I" = false -> String.prefix "Infinity" (String c rest) = false.
Proof.
  intros H. cbn [String.prefix]. destruct (ascii_dec "I" c) as [<-|]; [discriminate|reflexivity].
Qed.

Lemma isStringNumber_NaN (s : string) :
  isStringNumber s = true -> parseFloat s = NaN -> s = "NaN".
Proof.
  unfold isStringNumber. intros H Hp. apply andb_prop in H as [_ H].
  unfold matchOnlyNumberRe in H.
  destruct (String.eqb_spec s "NaN") as [Heq|Hn]; [exact Heq|].
  cbn [orb] in H.
  exfalso. revert H Hp. destruct s as [|c rest]; [discriminate|].
  destruct (Ascii.eqb_spec c "-") as [->|Hc].
  - intros H Hp. apply orb_prop in H as [H|H].
    + apply String.eqb_eq in H as ->. vm_compute in Hp. discriminate.
    + destruct (match_decimal_start rest H) as [c' [rest' [-> Hc']]].
      destruct (decimal_start_chars c' Hc') as [HI [_ [_ _]]].
      destruct (match_decimal_parse _ H) as [q Hq].
      revert Hp. unfold parseFloat. cbn [trim_start].
      replace (is_white "-") with false by reflexivity.
      replace (Ascii.eqb "-" "-") with true by reflexivity. cbv beta iota zeta.
      rewrite (prefix_Infinity_decimal c' rest' HI). rewrite Hq. discriminate.
  - intros H Hp. apply orb_prop in H as [H|H].
    + apply String.eqb_eq in H. rewrite H in Hp. vm_compute in Hp. discriminate.
    + destruct (match_decimal_start _ H) as [c' [rest' [Heq Hc']]].
      injection Heq as <- <-.
      destruct (decimal_start_chars c Hc') as [HI [HM [HP HW]]].
      destruct (match_decimal_parse _ H) as [q Hq].
      revert Hp. unfold parseFloat. cbn [trim_start]. rewrite HW, HM, HP. cbv beta iota zeta.
      rewrite (prefix_Infinity_decimal c rest HI). rewrite Hq. discriminate.
Qed.

(** [Decoder.number] (part_004 lines 231-242) rejects the number [NaN], but returns [NaN] on the string ["NaN"], and on no other input. *)
Theorem number_NaN_only_from_string :
  decoder V1.number (VNum NaN) = Returns (FAIL (ErrorV1.makeSingleError "Not a number" (VNum NaN)))
  /\ forall data, decoder V1.number data = Returns (OK NaN) <-> data = VStr "NaN".
Proof.
  split; [reflexivity|].
  intros data. split.
  - destruct data; cbn; try discriminate.
    + destruct n; cbn; discriminate.
    + destruct (isStringNumber s) eqn:Hs; [|discriminate].
      intros [= Hp]. f_equal. now apply isStringNumber_NaN.
  - intros ->. reflexivity.
Qed.

Lemma literalString_cases (str : string) (data : value) :
  (data = VStr str /\ decoder (V1.literalString str) data = Returns (OK str))
  \/ (data <> VStr str /\ exists e, decoder (V1.literalString str) data = Returns (FAIL e)).
Proof.
  destruct data; try (right; split; [discriminate|eexists; reflexivity]).
  destruct (String.eqb_spec s str) as [->|Hne].
  - left. split; [reflexivity|]. cbn. now rewrite String.eqb_refl.
  - right. split; [congruence|]. cbn. apply String.eqb_neq in Hne. rewrite Hne. eexists; reflexivity.
Qed.

(** [oneOf] of [literalString] decoders (an enumeration) accepts exactly the strings of the list, returning the input string. *)
Theorem oneOf_literalStrings_enum (strs : list string) (data : value) (v : string) :
  decoder (V1.createOneOf (List.map V1.literalString strs)) data = Returns (OK v) <->
  data = VStr v /\ In v strs.
Proof.
  cbn [decoder V1.createOneOf]. generalize (@nil ErrorV1.DecodeError) as errors.
  induction strs as [|s rest IH]; intros errors; cbn [List.map V1.createOneOf_loop].
  - split; [discriminate|intros [_ []]].
  - destruct (literalString_cases s data) as [[-> Hd]|[Hne [e Hd]]]; rewrite Hd; cbn [bind].
    + split.
      * intros [= <-]. split; [reflexivity|now left].
      * intros [[= ->] _]. reflexivity.
    + rewrite IH. split.
      * intros [H1 H2]. split; [exact H1|now right].
      * intros [H1 [->|H2]]; [contradiction|]. split; assumption.
Qed.

(** ** Witnesses *)

Lemma oneOf_returns_first_success_witness :
  Forall (fun p => exists e, decoder p (VStr "AU") = Returns (FAIL e)) [V1.literalString "SV"]
  /\ decoder (V1.literalString "AU") (VStr "AU") = Returns (OK "AU")
  /\ V1.run_oneOf_value (V1.oneOf ([V1.literalString "SV"] ++ [V1.literalString "AU"])) (VStr "AU")
     = Returns (OK "AU").
Proof.
  assert (Hpre : Forall (fun p => exists e, decoder p (VStr "AU") = Returns (FAIL e))
                        [V1.literalString "SV"])
    by (constructor; [eexists; reflexivity | constructor]).
  assert (Hd : decoder (V1.literalString "AU") (VStr "AU") = Returns (OK "AU")) by reflexivity.
  split; [exact Hpre|]. split; [exact Hd|].
  exact (proj1 (oneOf_returns_first_success [V1.literalString "SV"] (V1.literalString "AU")
                  (VStr "AU") "AU" Hpre Hd) []).
Defined.

Lemma object_decodes_every_key_witness :
  V1.run (V1.object [("a", V1.map V1.string' (fun s => Returns (VStr s)))])
         (VObject [("a", VStr "x"); ("b", VNull)])
  = Returns (OK (VObject [("a", VStr "x")]))
  /\ decoder (V2.object [("a", @mkDecoder ErrorV2.DecodeError value
                                 (fun _ => Returns (FAIL (ErrorV2.DE "Not a string" None))))])
             (VObject [("b", VNull)])
     = Returns (FAIL (ErrorV2.DE "Could not decode object"
                        (Some [ErrorV2.DE "- Key 'a', Not a string" None]))).
Proof.
  split.
  - exact (proj1 object_decodes_every_key
             [("a", V1.map V1.string' (fun s => Returns (VStr s)))]
             (VObject [("a", VStr "x"); ("b", VNull)])
             (fun _ => OK (VStr "x"))
             ltac:(repeat constructor; simpl; tauto)
             ltac:(simpl; intros [H|[]]; discriminate H) eq_refl
             ltac:(intros k d [H|[]]; inversion H; subst; reflexivity)).
  - exact (proj1 (proj2 object_decodes_every_key)
             [("a", @mkDecoder ErrorV2.DecodeError value
                      (fun _ => Returns (FAIL (ErrorV2.DE "Not a string" None))))]
             (VObject [("b", VNull)])
             (fun _ => FAIL (ErrorV2.DE "Not a string" None))
             ltac:(repeat constructor; simpl; tauto)
             ltac:(simpl; intros [H|[]]; discriminate H) eq_refl
             ltac:(intros k d [H|[]]; inversion H; subst; reflexivity)).
Defined.

Lemma then_reruns_on_original_input_witness :
  decoder (V1.then_ V1.string' (fun v => Returns (V1.literalString v))) (VStr "x")
  = Returns (OK "x")
  /\ decoder (V1.then_ V1.string' (fun v => Returns (V1.literalString v))) VNull
     = decoder V1.string' VNull.
Proof.
  split.
  - exact (proj1 (then_reruns_on_original_input V1.string' V1.literalString (VStr "x"))
             "x" eq_refl).
  - exact (proj2 (then_reruns_on_original_input V1.string' V1.literalString VNull)
             _ eq_refl).
Defined.

Lemma array_passes_object_check_witness :
  V1.run (V1.field "1" V1.number) (VArray [VNum (Fin 1); VNum (Fin 2)])
  = V1.run (V1.field "1" V1.number) (VObject [("0", VNum (Fin 1)); ("1", VNum (Fin 2))])
  /\ V1.run (V1.dict (V1.map V1.number (fun n => Returns (VNum n)))) (VArray [VNum (Fin 1); VNull])
     = V1.run (V1.dict (V1.map V1.number (fun n => Returns (VNum n))))
              (VObject [("0", VNum (Fin 1)); ("1", VNull)]).
Proof.
  split.
  - exact (proj1 (proj2 (proj2 (proj2 (array_passes_object_check [VNum (Fin 1); VNum (Fin 2)]))))
             jsnumber V1.number "1" ltac:(left; vm_compute; right; left; reflexivity)).
  - exact (proj1 (proj2 (proj2 (array_passes_object_check [VNum (Fin 1); VNull])))
             ltac:(apply N.leb_le; reflexivity) (V1.map V1.number (fun n => Returns (VNum n)))).
Defined.

Lemma renderError_preorder_witness :
  V2.run (@mkDecoder ErrorV2.DecodeError value
            (fun _ => Returns (FAIL (ErrorV2.DE "Could not decode object"
                                       (Some [ErrorV2.DE "- Key 'a', Not a string" None])))))
         VNull
  = Returns (FAIL (String.concat V2.newline
                     [V2.header; V2.header; "  Could not decode object:";
                      "    - Key 'a', Not a string"])).
Proof.
  exact (proj1 (proj2 renderError_preorder) value
           (@mkDecoder ErrorV2.DecodeError value
              (fun _ => Returns (FAIL (ErrorV2.DE "Could not decode object"
                                         (Some [ErrorV2.DE "- Key 'a', Not a string" None])))))
           VNull _ eq_refl).
Defined.

Lemma run_total_guard_wraps_witness :
  never_throws (V1.map V1.number (fun n => Returns (VNum n)))
  /\ V1.guard (fun _ => Returns "{}") V1.string' (VNum (Fin 1))
     = Throws (ExnValidationFailedV1 (ErrorV1.DESingle None "Not a string" (Some (VNum (Fin 1)))))
  /\ V1.guard (fun _ => Throws (ExnTypeError "Do not know how to serialize a BigInt"))
       V1.string' (VBigInt 10)
     = Throws (ExnTypeError "Do not know how to serialize a BigInt")
  /\ V1.run (V1.map V1.string' (fun _ => @Throws value (ExnThrown VNull))) (VStr "a")
     = Throws (ExnThrown VNull)
  /\ exists r, V1.run (V1.field "a" V1.number) (VObject [("a", VNum (Fin 1))]) = Returns r.
Proof.
  split; [|split; [|split; [|split]]].
  - exact (proj1 (proj1 (proj2 run_total_guard_wraps)) jsnumber value V1.number
             (fun n => Returns (VNum n)) nt_number
             ltac:(intros n; eexists; reflexivity)).
  - pose (G := proj2 (proj2 (proj2 (proj2 (proj2 run_total_guard_wraps))))).
    exact (proj1 (proj2 (G (fun _ => Returns "{}") string V1.string' (VNum (Fin 1))))
             _ "{}" eq_refl eq_refl).
  - pose (G := proj2 (proj2 (proj2 (proj2 (proj2 run_total_guard_wraps))))).
    exact (proj1 (proj2 (proj2 (G (fun _ => Throws (ExnTypeError "Do not know how to serialize a BigInt"))
                                  string V1.string' (VBigInt 10))))
             _ _ eq_refl eq_refl).
  - exact (proj1 (proj2 (proj2 run_total_guard_wraps)) string value V1.string'
             (fun _ => @Throws value (ExnThrown VNull)) (VStr "a") "a" (ExnThrown VNull)
             eq_refl eq_refl).
  - exact (proj2 (proj2 (proj2 (proj2 (proj2 (proj2 (proj1 (proj2 run_total_guard_wraps)))))))
             jsnumber "a" V1.number (VObject [("a", VNum (Fin 1))]) nt_number
             ltac:(vm_compute; discriminate)).
Defined.


Lemma default_never_fails_witness :
  decoder (V1.default V1.number (Fin 0)) (VStr "x") = Returns (OK (Fin 0)).
Proof.
  exact (proj2 (proj2 (default_never_fails V1.number (Fin 0) (VStr "x")))
           (ErrorV1.makeSingleError "Not a number" (VStr "x")) eq_refl).
Defined.

Lemma satisfy_failure_message_witness :
  decoder (V1.satisfy V1.number (fun _ => Returns false) (Some "")) (VNum (Fin 3))
  = Returns (FAIL (ErrorV1.DESingle None "Not fulfilled predicate" None)).
Proof.
  exact (proj1 (proj2 (proj2 (satisfy_failure_message V1.number (fun _ => Returns false)
                                (VNum (Fin 3)) (Fin 3) eq_refl) eq_refl))).
Defined.

Lemma boolean_accepts_witness :
  decoder V1.boolean (VStr "true") = Returns (OK true)
  /\ decoder V2.boolean (VStr "false") = Returns (OK false).
Proof.
  split.
  - apply (proj2 (proj1 boolean_accepts (VStr "true") true)). right; left; split; reflexivity.
  - apply (proj2 (proj1 (proj2 (proj2 boolean_accepts)) (VStr "false") false)).
    right; right; split; reflexivity.
Defined.

Lemma optional_v1_witness :
  decoder (V1.optional (V1.map V1.number (fun n => Returns (VNum n)))) (VStr "x") =
  Returns (FAIL (ErrorV1.DEList [ErrorV1.makeSingleError "Not undefined" (VStr "x");
                                 ErrorV1.makeSingleError "Not null" (VStr "x");
                                 ErrorV1.makeSingleError "Not a number" (VStr "x")])).
Proof.
  rewrite (proj2 (proj2 (optional_v1 (V1.map V1.number (fun n => Returns (VNum n))))) (VStr "x"))
    by discriminate.
  reflexivity.
Defined.

Lemma field_missing_key_witness :
  decoder (V1.field "a" (V1.optional (V1.map V1.number (fun n => Returns (VNum n)))))
    (VObject [("b", VNum (Fin 1))]) = Returns (OK VUndefined)
  /\ decoder (V1.field "a" V1.number) (VObject [("b", VNum (Fin 1))])
     = Returns (FAIL (ErrorV1.DEKeyed [("a", ErrorV1.makeSingleError "Not a number" VUndefined)])).
Proof.
  split.
  - exact (proj1 (proj1 field_missing_key "a" [("b", VNum (Fin 1))] ltac:(vm_compute; reflexivity))
             (V1.map V1.number (fun n => Returns (VNum n)))).
  - exact (proj2 (proj1 field_missing_key "a" [("b", VNum (Fin 1))] ltac:(vm_compute; reflexivity))
             jsnumber V1.number _ eq_refl).
Defined.

Lemma literalNumber_exact_witness :
  decoder (V1.literalNumber (fun _ => "5") (Fin 5)) (VStr "5") = Returns (OK (Fin 5)).
Proof.
  apply (proj2 (literalNumber_exact (fun _ => "5") (Fin 5) (VStr "5") (Fin 5))).
  split; [reflexivity|]. exists (parseFloat "5"). split; [reflexivity|vm_compute; reflexivity].
Defined.

Lemma literalNumber_NaN_rejects_witness :
  decoder V1.number (VStr "NaN") = Returns (OK NaN)
  /\ decoder (V1.literalNumber (fun _ => "NaN") NaN) (VStr "NaN") <> Returns (OK NaN).
Proof.
  split; [reflexivity|].
  exact (literalNumber_NaN_rejects (fun _ => "NaN") (VStr "NaN") NaN).
Defined.

Lemma literalString_exact_witness :
  decoder (V1.literalString "Jack") (VStr "Josefine")
  = Returns (FAIL (ErrorV1.DESingle None "Not Jack" None))
  /\ decoder (DecoderTs.literalString "Jack") (VStr "Josefine") = Returns (FAIL "String is not Jack").
Proof.
  split.
  - exact (proj1 (proj2 (literalString_exact "Jack")) "Josefine" ltac:(discriminate)).
  - exact (proj1 (proj2 (proj2 (proj2 (proj2 (literalString_exact "Jack"))))) "Josefine" ltac:(discriminate)).
Defined.

Lemma array_decodes_all_elements_witness :
  decoder (V1.array V1.number) (VStr "x") = Returns (FAIL (ErrorV1.makeSingleError "Not an array" (VStr "x")))
  /\ decoder (V1.array V1.number) (VArray [VNum (Fin 1); VStr "x"; VNull])
     = Returns (FAIL (ErrorV1.DEList [ErrorV1.DESingle (Some 1%nat) "Not a number" (Some (VStr "x"));
                                      ErrorV1.DESingle (Some 2%nat) "Not a number" (Some VNull)])).
Proof.
  split.
  - exact (proj1 (proj2 (array_decodes_all_elements V1.number)) (VStr "x") eq_refl).
  - rewrite (proj1 (array_decodes_all_elements V1.number)). reflexivity.
Defined.

Lemma createOneOf_all_fail_v1_witness :
  decoder (V1.createOneOf [V1.array V1.number; V1.map V1.string' (fun _ => Returns [])])
    (VArray [VNull]) =
  Returns (FAIL (ErrorV1.DEList [ErrorV1.DESingle (Some 0%nat) "Not a number" (Some VNull);
                                 ErrorV1.makeSingleError "Not a string" (VArray [VNull])])).
Proof.
  rewrite (createOneOf_all_fail_v1 _
             [ErrorV1.DEList [ErrorV1.DESingle (Some 0%nat) "Not a number" (Some VNull)];
              ErrorV1.makeSingleError "Not a string" (VArray [VNull])] (VArray [VNull]))
    by (repeat constructor).
  reflexivity.
Defined.

Lemma oneOf_all_fail_v2_witness :
  decoder (V2.oneOf (V2.number, [V2.field "a" V2.number])) VNull =
  Returns (FAIL (ErrorV2.DE "Not decoded since"
                  (Some [ErrorV2.DE "| Not a number" None; ErrorV2.DE "| Not an object" None]))).
Proof.
  exact (oneOf_all_fail_v2 V2.number [V2.field "a" V2.number]
           (ErrorV2.DE "Not a number" None) [ErrorV2.DE "Not an object" None] VNull
           ltac:(repeat constructor)).
Defined.

Lemma optional_v2_witness :
  decoder (V2.optional (V2.object [])) (VStr "x") =
  Returns (FAIL (ErrorV2.DE "Not decoded since"
                  (Some [ErrorV2.DE "| Not null or undefined" None; ErrorV2.DE "| Not an object" None]))).
Proof.
  rewrite (proj2 (proj2 (optional_v2 (V2.object []))) (VStr "x")) by discriminate.
  reflexivity.
Defined.

Lemma field_v2_flattens_error_witness :
  decoder (V2.field "a" (V2.object [("b", V2.empty)])) (VObject [("a", VObject [("b", VNum (Fin 1))])])
  = Returns (FAIL (ErrorV2.DE "Key 'a', Could not decode object" None)).
Proof.
  exact (proj1 (field_v2_flattens_error "a" (V2.object [("b", V2.empty)]))
           (VObject [("a", VObject [("b", VNum (Fin 1))])])
           (ErrorV2.DE "Could not decode object" (Some [ErrorV2.DE "- Key 'b', Not null or undefined" None]))
           eq_refl eq_refl).
Defined.

Lemma run_v2_repeats_header_witness :
  V2.run V2.number VNull =
  Returns (FAIL ("Error(s) decoding data:" ++ V2.newline ++ "Error(s) decoding data:" ++ V2.newline
                 ++ "  Not a number")%string).
Proof.
  exact (proj1 (run_v2_repeats_header V2.number VNull) (ErrorV2.DE "Not a number" None) eq_refl).
Defined.

Lemma dict_decodes_every_entry_witness :
  decoder (V1.dict (V1.map V1.number (fun n => Returns (VNum n))))
          (VObject [("a", VNum (Fin 1)); ("b", VStr "x")])
  = Returns (FAIL (ErrorV1.DEKeyed [("b", ErrorV1.makeSingleError "Not a number" (VStr "x"))])).
Proof.
  rewrite (proj1 dict_decodes_every_entry (V1.map V1.number (fun n => Returns (VNum n)))
             [("a", VNum (Fin 1)); ("b", VStr "x")]
             (fun k => if String.eqb k "a" then OK (VNum (Fin 1))
                       else FAIL (ErrorV1.makeSingleError "Not a number" (VStr "x")))).
  - vm_compute. reflexivity.
  - repeat constructor; cbn; intuition discriminate.
  - cbn. intuition discriminate.
  - intros k v [H|[H|[]]]; injection H as <- <-; reflexivity.
Defined.

Lemma sequence_partitions_witness :
  V1.sequence V1.number [VNum (Fin 1); VStr "x"; VNum (Fin 2)]
  = Returns ([VStr "x"], [Fin 1; Fin 2])
  /\ (length [VStr "x"] + length [Fin 1; Fin 2])%nat = length [VNum (Fin 1); VStr "x"; VNum (Fin 2)].
Proof.
  split; [reflexivity|].
  exact (proj2 (sequence_partitions V1.number [VNum (Fin 1); VStr "x"; VNum (Fin 2)]) _ _ eq_refl).
Defined.

Lemma object_ts_joins_errors_witness :
  decoder (DecoderTs.object [("a", DecoderTs.null); ("c", DecoderTs.null); ("b", DecoderTs.null)])
    (VObject [("a", VNum (Fin 1)); ("c", VStr "x")])
  = Returns (FAIL ("Failed to parse, got errors: Not null or undefined" ++ DecoderTs.newline
                   ++ "Not null or undefined")%string).
Proof.
  rewrite (proj1 object_ts_joins_errors
             [("a", DecoderTs.null); ("c", DecoderTs.null); ("b", DecoderTs.null)]
             (VObject [("a", VNum (Fin 1)); ("c", VStr "x")])
             (fun k => if String.eqb k "b" then OK VNull else FAIL "Not null or undefined")).
  - reflexivity.
  - repeat constructor; cbn; intuition discriminate.
  - cbn. intuition discriminate.
  - reflexivity.
  - intros k d [H|[H|[H|[]]]]; injection H as <- <-; vm_compute; reflexivity.
Defined.

Lemma number_NaN_only_from_string_witness :
  decoder V1.number (VStr "NaN") = Returns (OK NaN).
Proof.
  apply (proj2 (proj2 number_NaN_only_from_string (VStr "NaN"))). reflexivity.
Defined.

Lemma oneOf_literalStrings_enum_witness :
  decoder (V1.createOneOf (List.map V1.literalString ["Jack"; "Sofia"])) (VStr "Sofia") = Returns (OK "Sofia").
Proof.
  apply (proj2 (oneOf_literalStrings_enum ["Jack"; "Sofia"] (VStr "Sofia") "Sofia")).
  split; [reflexivity|right; left; reflexivity].
Defined.
